(** * DirectDemod web server: window bookkeeping, ingestion, batch pipeline
    and reconciliation ([directdemod/server/server.py]).

    The development embeds the server module shallowly: pure helpers
    ([get_interval], the filename pattern, [os.path.splitext]) become Rocq
    functions; the handlers ([upload_page], [update], [process],
    [move_unprocessed_files], [save_conf]) become computations in a small
    state-and-exception monad over a world made of the file system, the
    module globals [start_date] and [conf], the persisted configuration
    file and a trace of the calls made to the image-processing
    collaborators. *)

From stdpp Require Import gmap strings list fin_maps.
From Stdlib Require Import ZArith Lia Ascii String.

Open Scope Z_scope.
Set Warnings "-clear-no-such-hyp".

(* ================================================================== *)
(** * Part I: definitions *)
(* ================================================================== *)

(** ** [time.gmtime] and [time.strftime]

    Instants are whole seconds since the epoch: [time.gmtime] drops the
    fractional part of its argument, and the width added to an instant is
    an [int].  The calendar conversion is the usual proleptic Gregorian
    one, computed on days counted from 0000-03-01. *)

Record struct_time := mk_tm {
  tm_year : Z; tm_mon : Z; tm_mday : Z;
  tm_hour : Z; tm_min : Z; tm_sec : Z
}.

Definition civil_from_days (z : Z) : Z * Z * Z :=
  let z := z + 719468 in
  let era := z / 146097 in
  let doe := z mod 146097 in
  let yoe := (doe - doe / 1460 + doe / 36524 - doe / 146096) / 365 in
  let doy := doe - (365 * yoe + yoe / 4 - yoe / 100) in
  let mp := (5 * doy + 2) / 153 in
  let d := doy - (153 * mp + 2) / 5 + 1 in
  let m := if mp <? 10 then mp + 3 else mp - 9 in
  let y := yoe + era * 400 + (if m <=? 2 then 1 else 0) in
  (y, m, d).

Definition gmtime (secs : Z) : struct_time :=
  let days := secs / 86400 in
  let rem := secs mod 86400 in
  let '(y, m, d) := civil_from_days days in
  {| tm_year := y; tm_mon := m; tm_mday := d;
     tm_hour := rem / 3600; tm_min := rem mod 3600 / 60; tm_sec := rem mod 60 |}.

Definition digit_char (d : Z) : ascii := ascii_of_nat (48 + Z.to_nat d).

(** Decimal digits of a non-negative number, most significant first. *)
Fixpoint dec_digits (fuel : nat) (n : Z) (acc : string) : string :=
  match fuel with
  | O => acc
  | S fuel' =>
      let acc' := String (digit_char (n mod 10)) acc in
      if n <? 10 then acc' else dec_digits fuel' (n / 10) acc'
  end.

Definition show_Z (n : Z) : string :=
  if n <? 0 then String "-" (dec_digits (S (Z.to_nat (Z.log2 (- n)))) (- n) "")
  else dec_digits (S (Z.to_nat (Z.log2 n))) n "".

Definition pad2 (n : Z) : string :=
  String (digit_char (n / 10)) (String (digit_char (n mod 10)) "").

(** One conversion of [strftime]: [%Y] prints the year in decimal without
    padding, the others are two-digit fields. *)
Definition directive (c : ascii) (tm : struct_time) : string :=
  if Ascii.eqb c "Y" then show_Z (tm_year tm)
  else if Ascii.eqb c "m" then pad2 (tm_mon tm)
  else if Ascii.eqb c "d" then pad2 (tm_mday tm)
  else if Ascii.eqb c "H" then pad2 (tm_hour tm)
  else if Ascii.eqb c "M" then pad2 (tm_min tm)
  else if Ascii.eqb c "S" then pad2 (tm_sec tm)
  else String "%" (String c "").

Fixpoint strftime (fmt : string) (tm : struct_time) : string :=
  match fmt with
  | EmptyString => EmptyString
  | String c rest =>
      if Ascii.eqb c "%" then
        match rest with
        | String k rest' => directive k tm +:+ strftime rest' tm
        | EmptyString => String c EmptyString
        end
      else String c (strftime rest tm)
  end.

Definition TIME_FORMAT : string := "%Y-%m-%d_%H:%M:%S".

(** [get_interval(start_time, rate)] *)
Definition get_interval (start_time : Z) (rate : Z) : string :=
  strftime TIME_FORMAT (gmtime start_time) +:+ "_" +:+
  strftime TIME_FORMAT (gmtime (start_time + rate)).

(** Python compares [str] values lexicographically by code point. *)
Definition str_lt (a b : string) : Prop := String.compare a b = Lt.


(** Auxiliary decomposition of [civil_from_days], used to reason about it. *)
Definition yoe_of (doe : Z) : Z :=
  (doe - doe / 1460 + doe / 36524 - doe / 146096) / 365.
Definition doy_of (doe : Z) : Z :=
  doe - (365 * yoe_of doe + yoe_of doe / 4 - yoe_of doe / 100).
Definition mp_of (doy : Z) : Z := (5 * doy + 2) / 153.
Definition dom_of (doy : Z) : Z := doy - (153 * mp_of doy + 2) / 5 + 1.

Definition civil_lt (a b : Z * Z * Z) : Prop :=
  let '(y1, m1, d1) := a in
  let '(y2, m2, d2) := b in
  y1 < y2 \/ (y1 = y2 /\ (m1 < m2 \/ (m1 = m2 /\ d1 < d2))).

(** Fields of a broken-down time, compared lexicographically. *)
Definition tm_lt (a b : struct_time) : Prop :=
  tm_year a < tm_year b \/ (tm_year a = tm_year b /\
  (tm_mon a < tm_mon b \/ (tm_mon a = tm_mon b /\
  (tm_mday a < tm_mday b \/ (tm_mday a = tm_mday b /\
  (tm_hour a < tm_hour b \/ (tm_hour a = tm_hour b /\
  (tm_min a < tm_min b \/ (tm_min a = tm_min b /\ tm_sec a < tm_sec b))))))))).

Definition tm_four_digit (a : struct_time) : Prop :=
  1000 <= tm_year a <= 9999 /\ 1 <= tm_mon a <= 12 /\ 1 <= tm_mday a <= 31 /\
  0 <= tm_hour a <= 23 /\ 0 <= tm_min a <= 59 /\ 0 <= tm_sec a <= 59.

(** ** The filename pattern

    [PATTERN = re.compile("SDRSharp_[0-9]{8}_[0-9]{6}Z_[0-9]{9}Hz_IQ.png$")].
    The pattern only uses literals, the class [[0-9]], counted repetition
    with a one-digit count, the dot and the end anchor, so a compiled
    pattern is a sequence of single-character items and [re.match] needs no
    backtracking. *)

Inductive re_item :=
| ReLit (c : ascii)      (* a literal character *)
| ReDigit                (* [0-9] *)
| ReAny                  (* .  : any character but a newline *)
| ReEnd.                 (* $  : end of string, or before a final newline *)

Definition is_digit (c : ascii) : bool :=
  (48 <=? nat_of_ascii c)%nat && (nat_of_ascii c <=? 57)%nat.

Definition newline : ascii := ascii_of_nat 10.

(** Reads an optional [{n}] after an atom and emits the atom n times. *)
Definition quantified (item : re_item) (rest : string) : list re_item * string :=
  match rest with
  | String "{" (String n (String "}" rest')) =>
      if is_digit n then (replicate (nat_of_ascii n - 48) item, rest')
      else ([item], rest)
  | _ => ([item], rest)
  end.

Fixpoint re_compile_fuel (fuel : nat) (s : string) : list re_item :=
  match fuel with
  | O => []
  | S fuel' =>
      match s with
      | EmptyString => []
      | String "[" (String "0" (String "-" (String "9" (String "]" rest)))) =>
          let '(items, rest') := quantified ReDigit rest in
          items ++ re_compile_fuel fuel' rest'
      | String "." rest =>
          let '(items, rest') := quantified ReAny rest in
          items ++ re_compile_fuel fuel' rest'
      | String "$" rest => ReEnd :: re_compile_fuel fuel' rest
      | String c rest =>
          let '(items, rest') := quantified (ReLit c) rest in
          items ++ re_compile_fuel fuel' rest'
      end
  end.

Definition re_compile (s : string) : list re_item :=
  re_compile_fuel (String.length s) s.

(** [pattern.match(s)]: the pattern must match a prefix of [s]. *)
Fixpoint re_match (p : list re_item) (s : string) : bool :=
  match p with
  | [] => true
  | ReEnd :: p' =>
      match s with
      | EmptyString => re_match p' s
      | String c EmptyString => Ascii.eqb c newline && re_match p' s
      | _ => false
      end
  | item :: p' =>
      match s with
      | EmptyString => false
      | String c s' =>
          match item with
          | ReLit x => Ascii.eqb c x
          | ReDigit => is_digit c
          | ReAny => negb (Ascii.eqb c newline)
          | ReEnd => false
          end && re_match p' s'
      end
  end.

Definition PATTERN : list re_item :=
  re_compile "SDRSharp_[0-9]{8}_[0-9]{6}Z_[0-9]{9}Hz_IQ.png$".

(** ** Path helpers: [str.rfind], slices and [os.path.splitext] *)

(** Index of the last occurrence of [c] in [s], or [-1]. *)
Fixpoint rfind (c : ascii) (s : string) : Z :=
  match s with
  | EmptyString => -1
  | String x s' =>
      let r := rfind c s' in
      if 0 <=? r then r + 1 else if Ascii.eqb x c then 0 else -1
  end.

(** [s[:n]] and [s[n:]] for [0 <= n]. *)
Definition str_take (n : Z) (s : string) : string :=
  String.substring 0 (Z.to_nat n) s.
Definition str_drop (n : Z) (s : string) : string :=
  String.substring (Z.to_nat n) (String.length s) s.

Fixpoint all_dots (s : string) : bool :=
  match s with
  | EmptyString => true
  | String c s' => Ascii.eqb c "." && all_dots s'
  end.

(** [os.path.splitext(p)]: the extension starts at the last dot of the
    last path component, unless that component has only leading dots
    before it. *)
Definition splitext (p : string) : string * string :=
  let sepIndex := rfind "/" p in
  let dotIndex := rfind "." p in
  if sepIndex <? dotIndex then
    if all_dots (str_take (dotIndex - (sepIndex + 1)) (str_drop (sepIndex + 1) p))
    then (p, EmptyString)
    else (str_take dotIndex p, str_drop dotIndex p)
  else (p, EmptyString).

(** [s.endswith(suffix)] *)
Definition ends_with (suffix s : string) : bool :=
  String.eqb (str_drop (Z.of_nat (String.length s) - Z.of_nat (String.length suffix)) s)
             suffix
  && (String.length suffix <=? String.length s)%nat.

Fixpoint no_slash (s : string) : bool :=
  match s with
  | EmptyString => true
  | String c s' => negb (Ascii.eqb c "/") && no_slash s'
  end.

(** Directory part and last component of a path (split at the last [/]). *)
Fixpoint split_last (s : string) : option (string * string) :=
  match s with
  | EmptyString => None
  | String c s' =>
      match split_last s' with
      | Some (d, b) => Some (String c d, b)
      | None => if Ascii.eqb c "/" then Some (EmptyString, s') else None
      end
  end.

Definition path_split (p : string) : string * string :=
  match split_last p with
  | Some x => x
  | None => (EmptyString, p)
  end.

(** ** The world

    The file system maps the path of a directory to its entries (name to
    content); paths are compared literally, without normalisation.  The
    images root is assumed to exist, so creating a window directory only
    fails when it is already there. *)

Inductive exn :=
| FileExistsError (path : string)
| FileNotFoundError (path : string)
| KeyError (key : string)
| TypeError (msg : string)
| IndexError
| StageError (msg : string).

Inductive outcome (A : Type) :=
| Ok (a : A)
| Raise (e : exn).
Arguments Ok {A} a.
Arguments Raise {A} e.

(** Calls made by the pipeline to what lies outside the module, and what
    it prints. *)
Inductive event :=
| EvPreprocess (image_name output_file : string)
| EvSaveMetadata (file_name image_name sat_type tle_file : string)
| EvGeoref (input_file output_file : string)
| EvMerge (files : list string) (output_file : string)
| EvCopyfile (src dst : string)
| EvSetNodata (file : string) (value : Z)
| EvSystem (command : string)
| EvPrint (e : exn).

(** The configuration is a Python [dict] loaded from JSON: insertion
    ordered, keys are strings (as loaded) or integers (as added by
    [update]). *)
Inductive ckey := KStr (s : string) | KInt (n : Z).
Inductive cval := VInt (n : Z) | VStr (s : string).

Definition ckey_eqb (a b : ckey) : bool :=
  match a, b with
  | KStr x, KStr y => String.eqb x y
  | KInt x, KInt y => x =? y
  | _, _ => false
  end.

Fixpoint dict_get (d : list (ckey * cval)) (k : ckey) : option cval :=
  match d with
  | [] => None
  | (k', v) :: d' => if ckey_eqb k' k then Some v else dict_get d' k
  end.

(** [d[k] = v]: replaces the value in place, or appends a new item. *)
Fixpoint dict_set (d : list (ckey * cval)) (k : ckey) (v : cval) : list (ckey * cval) :=
  match d with
  | [] => [(k, v)]
  | (k', v') :: d' =>
      if ckey_eqb k' k then (k', v) :: d' else (k', v') :: dict_set d' k v
  end.

(** [json.dump] writes every key as a string. *)
Definition json_key (k : ckey) : string :=
  match k with
  | KStr s => s
  | KInt n => show_Z n
  end.

Definition json_dump (d : list (ckey * cval)) : list (string * cval) :=
  map (fun kv => (json_key kv.1, kv.2)) d.

Fixpoint json_get (o : list (string * cval)) (k : string) : option cval :=
  match o with
  | [] => None
  | (k', v) :: o' => if String.eqb k' k then Some v else json_get o' k
  end.

(** The file stored under name [n] of directory [d], and the resolution of
    a path for reading and for writing. *)
Definition file_at (f : gmap string (gmap string string)) (d n : string) : option string :=
  f !! d ≫= (.!! n).

Definition fs_read (p : string) (f : gmap string (gmap string string)) : option string :=
  let '(d, n) := path_split p in file_at f d n.

Definition fs_write (p c : string) (f : gmap string (gmap string string)) :
    option (gmap string (gmap string string)) :=
  let '(d, n) := path_split p in
  match f !! d with
  | Some e => Some (<[d := <[n := c]> e]> f)
  | None => None
  end.

Record World := mkWorld {
  fs : gmap string (gmap string string);
  start_date : Z;
  conf : list (ckey * cval);
  conf_json : list (string * cval);      (* content of CONF_PATH *)
  trace : list event
}.

Definition with_fs (f : gmap string (gmap string string)) (w : World) : World :=
  mkWorld f (start_date w) (conf w) (conf_json w) (trace w).
Definition with_start_date (t : Z) (w : World) : World :=
  mkWorld (fs w) t (conf w) (conf_json w) (trace w).
Definition with_conf (c : list (ckey * cval)) (w : World) : World :=
  mkWorld (fs w) (start_date w) c (conf_json w) (trace w).
Definition with_conf_json (j : list (string * cval)) (w : World) : World :=
  mkWorld (fs w) (start_date w) (conf w) j (trace w).
Definition log (ev : event) (w : World) : World :=
  mkWorld (fs w) (start_date w) (conf w) (conf_json w) (trace w ++ [ev]).

(** ** Computations: state plus exceptions *)

Definition M (A : Type) : Type := World -> outcome A * World.

Definition ret {A} (a : A) : M A := fun w => (Ok a, w).
Definition raise {A} (e : exn) : M A := fun w => (Raise e, w).
Definition bind {A B} (m : M A) (k : A -> M B) : M B :=
  fun w =>
    match m w with
    | (Ok a, w') => k a w'
    | (Raise e, w') => (Raise e, w')
    end.
(** [try: m except Exception as e: h e] *)
Definition try_except {A} (m : M A) (h : exn -> M A) : M A :=
  fun w =>
    match m w with
    | (Ok a, w') => (Ok a, w')
    | (Raise e, w') => h e w'
    end.

Notation "'let*' x ':=' m 'in' k" := (bind m (fun x => k))
  (at level 10, x name, m at level 100, k at level 200).
Notation "m ;; k" := (bind m (fun _ => k))
  (at level 100, k at level 200, right associativity).

Fixpoint for_each {A} (l : list A) (body : A -> M unit) : M unit :=
  match l with
  | [] => ret tt
  | x :: l' => body x ;; for_each l' body
  end.

Definition gets {A} (f : World -> A) : M A := fun w => (Ok (f w), w).
Definition modify (f : World -> World) : M unit := fun w => (Ok tt, f w).

(** *** File system primitives *)

Definition listing (d : gmap string string) : list string := (map_to_list d).*1.

Definition isdir (p : string) : M bool :=
  gets (fun w => bool_decide (is_Some (fs w !! p))).

Definition listdir (p : string) : M (list string) :=
  fun w =>
    match fs w !! p with
    | Some d => (Ok (listing d), w)
    | None => (Raise (FileNotFoundError p), w)
    end.

Definition mkdir (p : string) : M unit :=
  fun w =>
    match fs w !! p with
    | Some _ => (Raise (FileExistsError p), w)
    | None => (Ok tt, with_fs (<[p := ∅]> (fs w)) w)
    end.

(** Opening [p] for writing and storing [c] (truncates an existing file). *)
Definition write_file (p : string) (c : string) : M unit :=
  fun w =>
    match fs_write p c (fs w) with
    | Some f' => (Ok tt, with_fs f' w)
    | None => (Raise (FileNotFoundError p), w)
    end.

Definition read_file (p : string) : M string :=
  fun w =>
    match fs_read p (fs w) with
    | Some c => (Ok c, w)
    | None => (Raise (FileNotFoundError p), w)
    end.

(** [os.rename(src, dst)] for a file. *)
Definition rename (src dst : string) : M unit :=
  fun w =>
    let '(ds, ns) := path_split src in
    let '(dd, nd) := path_split dst in
    match file_at (fs w) ds ns with
    | None => (Raise (FileNotFoundError src), w)
    | Some c =>
        match fs w !! dd with
        | None => (Raise (FileNotFoundError dst), w)
        | Some _ =>
            (Ok tt,
             with_fs (alter (insert nd c) dd (alter (delete ns) ds (fs w))) w)
        end
    end.

(** [shutil.copyfile(src, dst)] *)
Definition copyfile (src dst : string) : M unit :=
  modify (log (EvCopyfile src dst)) ;;
  let* c := read_file src in
  write_file dst c.

Definition print (e : exn) : M unit := modify (log (EvPrint e)).

(** *** The image-processing collaborators

    [directdemod.misc], [directdemod.georeferencer], [directdemod.merger]
    and the [gdal2tiles.py] command are outside the module: each is a
    function of its arguments and the file system, which it may change
    before it returns or raises.  [os.system] returns an exit status and
    never raises.  The imports at the head of [process] and the
    construction of the [Georeferencer] are taken to succeed, and every
    exception is an instance of [Exception], which the [except] clause of
    the loop catches. *)
Record Collaborators := {
  preprocess : string -> string -> gmap string (gmap string string) ->
               option exn * gmap string (gmap string string);
  save_metadata : string -> string -> string -> string ->
               gmap string (gmap string string) ->
               option exn * gmap string (gmap string string);
  georef_tif : string -> string -> gmap string (gmap string string) ->
               option exn * gmap string (gmap string string);
  merge : list string -> string -> gmap string (gmap string string) ->
               option exn * gmap string (gmap string string);
  set_nodata : string -> Z -> gmap string (gmap string string) ->
               option exn * gmap string (gmap string string);
  os_system : string -> gmap string (gmap string string) ->
               gmap string (gmap string string)
}.

Definition call (ev : event)
    (f : gmap string (gmap string string) ->
         option exn * gmap string (gmap string string)) : M unit :=
  fun w =>
    let '(r, fs') := f (fs w) in
    let w' := with_fs fs' (log ev w) in
    match r with
    | None => (Ok tt, w')
    | Some e => (Raise e, w')
    end.

Definition list_index (l : list string) (i : nat) : M string :=
  match l !! i with
  | Some x => ret x
  | None => raise IndexError
  end.

Definition enumerate {A} (l : list A) : list (nat * A) :=
  zip (seq 0 (List.length l)) l.

(** ** The request seen by [upload_page] *)

Inductive http_method := GET | POST.

Record uploaded_file := mk_file { filename : string; stream : string }.

Record request := mk_request {
  method : http_method;
  form : list (string * string);
  files : list (string * uploaded_file)
}.

(** [request.files.keys()]: every field name once, in order of arrival. *)
Fixpoint multi_keys {A} (l : list (string * A)) : list string :=
  match l with
  | [] => []
  | (k, _) :: l' => k :: filter (fun k' => negb (String.eqb k k')) (multi_keys l')
  end.

(** [multidict[key]]: the first value of the field. *)
Fixpoint multi_get {A} (l : list (string * A)) (key : string) : option A :=
  match l with
  | [] => None
  | (k, v) :: l' => if String.eqb k key then Some v else multi_get l' key
  end.

Definition multi_index {A} (l : list (string * A)) (key : string) : M A :=
  match multi_get l key with
  | Some v => ret v
  | None => raise (KeyError key)
  end.

(** ** The server module *)

Section Server.
Context (root_path : string) (RATE : Z) (TLE_NOAA : string).
Context (X : Collaborators).

Definition window_dir (t : Z) : string :=
  root_path +:+ "/images/img" +:+ get_interval t RATE.

(** Entries of the current window's directory, none when it is absent. *)
Definition current_entries (w : World) : gmap string string :=
  default ∅ (fs w !! window_dir (start_date w)).

(** [upload_page()] *)
Definition upload_page (req : request) : M unit :=
  match method req with
  | POST =>
      let* sd := gets start_date in
      let dir_path := root_path +:+ "/images/img" +:+ get_interval sd RATE in
      let* present := isdir dir_path in
      (if negb present then mkdir dir_path else ret tt) ;;
      for_each (multi_keys (files req)) (fun key =>
        let* file := multi_index (files req) key in
        if re_match PATTERN (filename file) then
          let* sat_type := multi_index (form req) "sat_type" in
          write_file (dir_path +:+ "/" +:+ sat_type +:+ "_" +:+ filename file)
                     (stream file)
        else ret tt)
  | GET => ret tt
  end.

(** [save_conf()] *)
Definition save_conf : M unit :=
  let* c := gets conf in
  modify (with_conf_json (json_dump c)).

Definition gdal2tiles (merged_file tms_path : string) : M unit :=
  let command := "gdal2tiles.py --profile=mercator -z 1-6 -w none " +:+
                 merged_file +:+ " " +:+ tms_path in
  modify (fun w => with_fs (os_system X command (fs w)) (log (EvSystem command) w)).

(** Body of the loop of [process] for one [(index, val)]. *)
Definition process_one (georeferenced sat_types : list string)
    (iv : nat * string) : M unit :=
  let '(index, val) := iv in
  try_except
    (let* geo := list_index georeferenced index in
     call (EvPreprocess val geo) (preprocess X val geo) ;;
     let* geo := list_index georeferenced index in
     let* sat := list_index sat_types index in
     call (EvSaveMetadata val geo sat TLE_NOAA)
          (save_metadata X val geo sat TLE_NOAA) ;;
     let* geo := list_index georeferenced index in
     call (EvGeoref geo geo) (georef_tif X geo geo))
    (fun exp => print exp).

(** [process(dir_path, tms_path, images)] *)
Definition process (dir_path tms_path : string) (images : list string) : M unit :=
  let sat_types := map (fun f => str_take 7 f) images in
  let images := map (fun f => dir_path +:+ "/" +:+ f) images in
  let georeferenced := map (fun f => (splitext f).1 +:+ "_geo.tif") images in
  for_each (enumerate images) (process_one georeferenced sat_types) ;;
  let merged_file := dir_path +:+ "/merged.tif" in
  (if (1 <? List.length georeferenced)%nat then
     call (EvMerge georeferenced merged_file) (merge X georeferenced merged_file) ;;
     gdal2tiles merged_file tms_path
   else if (List.length georeferenced =? 1)%nat then
     let* geo0 := list_index georeferenced 0 in
     copyfile geo0 merged_file ;;
     call (EvSetNodata merged_file 0) (set_nodata X merged_file 0) ;;
     gdal2tiles merged_file tms_path
   else ret tt) ;;
  save_conf.

(** Names used to reason about [process]: the artifact path of a file of
    the snapshot, the three stages run on it inside the [try], the loop
    iteration around them, and the whole loop (lines 152 to 170). *)
Definition artifact (dir_path f : string) : string :=
  (splitext (dir_path +:+ "/" +:+ f)).1 +:+ "_geo.tif".

Definition stage (dir_path f : string) : M unit :=
  let val := dir_path +:+ "/" +:+ f in
  let geo := artifact dir_path f in
  call (EvPreprocess val geo) (preprocess X val geo) ;;
  call (EvSaveMetadata val geo (str_take 7 f) TLE_NOAA)
       (save_metadata X val geo (str_take 7 f) TLE_NOAA) ;;
  call (EvGeoref geo geo) (georef_tif X geo geo).

Definition attempt (dir_path f : string) : M unit :=
  try_except (stage dir_path f) (fun exp => print exp).

Definition per_file_loop (dir_path : string) (images : list string) : M unit :=
  let sat_types := map (fun f => str_take 7 f) images in
  let images := map (fun f => dir_path +:+ "/" +:+ f) images in
  let georeferenced := map (fun f => (splitext f).1 +:+ "_geo.tif") images in
  for_each (enumerate images) (process_one georeferenced sat_types).

(** The merged-output path and the tiling command of a window. *)
Definition merged_path (dir_path : string) : string := dir_path +:+ "/merged.tif".

Definition tile_command (dir_path tms_path : string) : string :=
  "gdal2tiles.py --profile=mercator -z 1-6 -w none " +:+
  merged_path dir_path +:+ " " +:+ tms_path.

(** Everything [process] does before [save_conf]. *)
Definition before_save (dir_path tms_path : string) (images : list string) : M unit :=
  per_file_loop dir_path images ;;
  let georeferenced := map (artifact dir_path) images in
  if (1 <? List.length georeferenced)%nat then
    call (EvMerge georeferenced (merged_path dir_path))
         (merge X georeferenced (merged_path dir_path)) ;;
    gdal2tiles (merged_path dir_path) tms_path
  else if (List.length georeferenced =? 1)%nat then
    let* geo0 := list_index georeferenced 0 in
    copyfile geo0 (merged_path dir_path) ;;
    call (EvSetNodata (merged_path dir_path) 0) (set_nodata X (merged_path dir_path) 0) ;;
    gdal2tiles (merged_path dir_path) tms_path
  else ret tt.

(** [move_unprocessed_files(dir_path, images)] *)
Definition not_processed (images files : list string) : list string :=
  let dimages : gset string := list_to_set images in
  let dgeo : gset string := set_map (fun x => (splitext x).1 +:+ "_geo.tif") dimages in
  filter (fun file => (file ∉ dimages) ∧ (file ∉ dgeo) ∧ file ≠ "merged.tif") files.

Definition move_unprocessed_files (dir_path : string) (images : list string) : M unit :=
  let* listed := listdir dir_path in
  let not_processed := not_processed images listed in
  match not_processed with
  | [] => ret tt
  | _ :: _ =>
      let* sd := gets start_date in
      let new_dir_path := root_path +:+ "/images/img" +:+ get_interval sd RATE in
      mkdir new_dir_path ;;
      for_each not_processed (fun file =>
        rename (dir_path +:+ "/" +:+ file) (new_dir_path +:+ "/" +:+ file))
  end.

Definition key_of_val (v : cval) : ckey :=
  match v with
  | VInt n => KInt n
  | VStr s => KStr s
  end.

Definition conf_index (k : string) : M cval :=
  let* c := gets conf in
  match dict_get c (KStr k) with
  | Some v => ret v
  | None => raise (KeyError k)
  end.

(** [update()] *)
Definition update : M unit :=
  let* sd := gets start_date in
  let interval := get_interval sd RATE in
  let dir_path := root_path +:+ "/images/img" +:+ interval in
  let* present := isdir dir_path in
  let* skip :=
    (if negb present then ret true
     else let* l := listdir dir_path in ret (bool_decide (l = []))) in
  if (skip : bool) then
    modify (fun w => with_start_date (start_date w + RATE) w)
  else
    let* images := listdir dir_path in
    let tms_path := root_path +:+ "/tms/tms" +:+ interval in
    process dir_path tms_path images ;;
    modify (fun w => with_start_date (start_date w + RATE) w) ;;
    move_unprocessed_files dir_path images ;;
    let* counter := conf_index "counter" in
    modify (fun w => with_conf (dict_set (conf w) (key_of_val counter) (VStr interval)) w) ;;
    let* counter := conf_index "counter" in
    match counter with
    | VInt n => modify (fun w => with_conf (dict_set (conf w) (KStr "counter") (VInt (n + 1))) w)
    | VStr _ => raise (TypeError "can only concatenate str (not 'int') to str")
    end.

(** Names used to reason about [update]: the advance of the cursor
    ([start_date += RATE]) and the two statements that record the window
    in the configuration (lines 108 and 109). *)
Definition advance : M unit :=
  modify (fun w => with_start_date (start_date w + RATE) w).

Definition record_window (interval : string) : M unit :=
  let* counter := conf_index "counter" in
  modify (fun w => with_conf (dict_set (conf w) (key_of_val counter) (VStr interval)) w) ;;
  let* counter := conf_index "counter" in
  match counter with
  | VInt n => modify (fun w => with_conf (dict_set (conf w) (KStr "counter") (VInt (n + 1))) w)
  | VStr _ => raise (TypeError "can only concatenate str (not 'int') to str")
  end.

Definition tms_dir (t : Z) : string :=
  root_path +:+ "/tms/tms" +:+ get_interval t RATE.

End Server.

(** ** Frame conditions

    [frame R m]: the world in which [m] ends, whether it returns or raises,
    is related by [R] to the world in which it started.  [preserves f m]:
    the observation [f] is unchanged; [logs_only P m]: the trace is only
    extended, by events that satisfy [P]. *)
Definition frame (R : relation World) {A} (m : M A) : Prop :=
  forall w, R w (m w).2.

Definition same {B} (f : World -> B) : relation World :=
  fun w w' => f w' = f w.

Definition preserves {A B} (f : World -> B) (m : M A) : Prop :=
  frame (same f) m.

Definition extends_with (P : event -> Prop) : relation World :=
  fun w w' => exists evs, trace w' = trace w ++ evs /\ Forall P evs.

Definition logs_only (P : event -> Prop) {A} (m : M A) : Prop :=
  frame (extends_with P) m.

(** Events of the per-file loop, as opposed to those of the merge and
    tiling stage. *)
Definition loop_event (ev : event) : Prop :=
  match ev with
  | EvPreprocess _ _ | EvSaveMetadata _ _ _ _ | EvGeoref _ _ | EvPrint _ => True
  | _ => False
  end.

(** The globals of the module and the persisted configuration. *)
Definition globals (w : World) : Z * list (ckey * cval) * list (string * cval) :=
  (start_date w, conf w, conf_json w).

(** The cursor and the in-memory configuration. *)
Definition cursor_conf (w : World) : Z * list (ckey * cval) :=
  (start_date w, conf w).

(** No integer key at or above the counter: the next entry recorded by
    [update] is a new one. *)
Definition conf_fresh (d : list (ckey * cval)) : Prop :=
  forall c, dict_get d (KStr "counter") = Some (VInt c) ->
  forall k, c <= k -> dict_get d (KInt k) = None.

(** The directories that exist. *)
Definition dirs (w : World) : gset string := dom (fs w).

(** Entry names never contain the path separator. *)
Definition names_ok (f : gmap string (gmap string string)) : Prop :=
  forall d e n, f !! d = Some e -> is_Some (e !! n) -> no_slash n = true.

(** Entries of the old and of the new directory once the files named in
    [l] have been renamed from the first into the second, in order. *)
Fixpoint relocate (l : list string)
    (p : gmap string string * gmap string string) :
    gmap string string * gmap string string :=
  match l with
  | [] => p
  | x :: l' =>
      match p.1 !! x with
      | Some c => relocate l' (delete x p.1, <[x := c]> p.2)
      | None => p
      end
  end.

(** ** A concrete deployment

    Modelled from the spec: the collaborators are not part of the module;
    the instance below follows their description (the processing stage
    produces the artifact from the input, geo-referencing works on the
    artifact in place, merging reads every artifact and writes one output,
    and each of them may fail).  [pre_fails] and [geo_fails] select the
    inputs on which preprocessing and geo-referencing raise. *)
Definition sample_collaborators (pre_fails geo_fails : string -> bool)
    (merge_fails : bool) : Collaborators :=
  {| preprocess src dst f :=
       if pre_fails src then (Some (StageError "preprocess"), f)
       else match fs_read src f with
            | None => (Some (FileNotFoundError src), f)
            | Some c =>
                match fs_write dst c f with
                | Some f' => (None, f')
                | None => (Some (FileNotFoundError dst), f)
                end
            end;
     save_metadata _ _ _ _ f := (None, f);
     georef_tif src _ f :=
       if geo_fails src then (Some (StageError "georef_tif"), f) else (None, f);
     merge inputs out f :=
       if merge_fails then (Some (StageError "merge"), f)
       else match filter (fun p => fs_read p f = None) inputs with
            | p :: _ => (Some (FileNotFoundError p), f)
            | [] =>
                match fs_write out "merged" f with
                | Some f' => (None, f')
                | None => (Some (FileNotFoundError out), f)
                end
            end;
     set_nodata _ _ f := (None, f);
     os_system _ f := f |}.

Definition never (_ : string) : bool := false.

Definition sample_root : string := "/srv".
Definition sample_rate : Z := 600.
Definition sample_tle : string := "noaa.tle".
(** 2019-06-01 12:00:00 UTC *)
Definition sample_start : Z := 1559390400.
Definition sample_dir : string := "/srv/images/img2019-06-01_12:00:00_2019-06-01_12:10:00".
Definition sample_next_dir : string := "/srv/images/img2019-06-01_12:10:00_2019-06-01_12:20:00".
Definition sample_conf : list (ckey * cval) :=
  [(KStr "update_rate", VInt 600); (KStr "counter", VInt 0)].

Definition file_a : string := "NOAA 19_SDRSharp_20190601_120100Z_137100000Hz_IQ.png".
Definition file_b : string := "NOAA 18_SDRSharp_20190601_120500Z_137912500Hz_IQ.png".
Definition late_file : string := "NOAA 15_SDRSharp_20190601_120900Z_137620000Hz_IQ.png".
Definition next_file : string := "NOAA 19_SDRSharp_20190601_121000Z_137100000Hz_IQ.png".

Definition sample_world (f : gmap string (gmap string string)) : World :=
  mkWorld f sample_start sample_conf (json_dump sample_conf) [].

Definition one_file_fs : gmap string (gmap string string) :=
  {[ sample_dir := {[ file_a := "iq-a" ]} ]}.
Definition two_files_fs : gmap string (gmap string string) :=
  {[ sample_dir := <[ file_a := "iq-a" ]> {[ file_b := "iq-b" ]} ]}.

Definition empty_world : World := sample_world ∅.

Definition capture_name : string := "SDRSharp_20190601_120100Z_137100000Hz_IQ.png".
Definition wildcard_name : string := "SDRSharp_20190601_120000Z_137100000Hz_IQXpng".

(** A POST request with one file part and the category as [sat_type]. *)
Definition accept_request (category fname content : string) : request :=
  mk_request POST [("sat_type", category)] [("file", mk_file fname content)].

Definition sample_tms : string := "/srv/tms/tms2019-06-01_12:00:00_2019-06-01_12:10:00".

(** Collaborators that all succeed; with a geo-referencing that raises on
    the artifact of [file_a]; with a preprocessing that raises on
    [file_b]; with a merge that raises. *)
Definition all_fine : Collaborators := sample_collaborators never never false.
Definition georef_breaks : Collaborators :=
  sample_collaborators never (String.eqb (artifact sample_dir file_a)) false.
Definition preprocess_breaks : Collaborators :=
  sample_collaborators (String.eqb (sample_dir +:+ "/" +:+ file_b)) never false.
Definition merge_breaks : Collaborators := sample_collaborators never never true.

(** A tick on the sample window interleaved with two upload requests: the
    snapshot is [[file_a]]; [late_file] is uploaded while the window is
    still current; the cursor advances; a further upload then lands in the
    next window and creates its directory.  [late_upload_world] is the
    world in which [move_unprocessed_files] is then called. *)
Definition late_upload_world : World :=
  (( process sample_tle all_fine sample_dir sample_tms [file_a] ;;
     upload_page sample_root sample_rate
       (accept_request "NOAA 15" "SDRSharp_20190601_120900Z_137620000Hz_IQ.png" "iq-late") ;;
     advance sample_rate ;;
     upload_page sample_root sample_rate
       (accept_request "NOAA 19" "SDRSharp_20190601_121000Z_137100000Hz_IQ.png" "iq-next") )
   (sample_world one_file_fs)).2.

(** ** Start-up and page rendering

    [conf = json.load(open(CONF_PATH, 'r'))] at import: the pairs of the
    JSON object are stored one after the other, so every key is a string
    and a repeated key keeps its first position and its last value. *)
Definition json_load (o : list (string * cval)) : list (ckey * cval) :=
  foldl (fun d kv => dict_set d (KStr kv.1) kv.2) [] o.

Definition load_conf : M unit :=
  modify (fun w => with_conf (json_load (conf_json w)) w).

(** [map_page()] and [globe_page()]: the template and the [conf] argument
    handed to it, [json.dumps(conf)]. *)
Definition map_page : M (string * list (string * cval)) :=
  let* c := gets conf in ret ("map.html"%string, json_dump c).

Definition globe_page : M (string * list (string * cval)) :=
  let* c := gets conf in ret ("globe.html"%string, json_dump c).

(** The value a key has for a reader of a JSON object: the last one. *)
Definition json_last (o : list (string * cval)) (k : string) : option cval :=
  json_get (reverse o) k.

(** ** Reading the pattern

    The character test of an item, the well-formed capture names, and the
    parts of a multipart request that the handler looks at. *)
Definition item_accepts (i : re_item) (c : ascii) : bool :=
  match i with
  | ReLit x => Ascii.eqb c x
  | ReDigit => is_digit c
  | ReAny => negb (Ascii.eqb c newline)
  | ReEnd => false
  end.

Fixpoint all_digits (s : string) : bool :=
  match s with
  | EmptyString => true
  | String c s' => is_digit c && all_digits s'
  end.

Definition capture_filename (date time freq : string) : string :=
  "SDRSharp_" +:+ date +:+ "_" +:+ time +:+ "Z_" +:+ freq +:+ "Hz_IQ.png".

(** The first part of every field name, in order of arrival. *)
Fixpoint first_parts {A} (l : list (string * A)) : list (string * A) :=
  match l with
  | [] => []
  | (k, v) :: l' =>
      (k, v) :: filter (fun p => negb (String.eqb k p.1)) (first_parts l')
  end.

Definition is_preprocess (ev : event) : bool :=
  match ev with
  | EvPreprocess _ _ => true
  | _ => false
  end.

(** The literal items of a pattern. *)
Definition lits (s : string) : list re_item := map ReLit (list_ascii_of_string s).

(** Events other than the call of [preprocess]. *)
Definition other_event (ev : event) : Prop := is_preprocess ev = false.

(* ================================================================== *)
(** * Part II: properties *)
(* ================================================================== *)

(** The label, the pattern matcher and the path functions are kept folded
    during simplification. *)
Arguments get_interval : simpl never.
Arguments re_match : simpl never.
Arguments splitext : simpl never.
Arguments path_split : simpl never.
Arguments window_dir : simpl never.

Example get_interval_epoch :
  get_interval 0 600 = "1970-01-01_00:00:00_1970-01-01_00:10:00"%string.
Proof. vm_compute. reflexivity. Qed.

Example get_interval_2019 :
  get_interval 1559390400 3600 = "2019-06-01_12:00:00_2019-06-01_13:00:00"%string.
Proof. vm_compute. reflexivity. Qed.

Example strftime_leap_day :
  strftime TIME_FORMAT (gmtime 1582934400) = "2020-02-29_00:00:00"%string /\
  strftime TIME_FORMAT (gmtime 951782400) = "2000-02-29_00:00:00"%string /\
  strftime TIME_FORMAT (gmtime 4107542400) = "2100-03-01_00:00:00"%string /\
  strftime TIME_FORMAT (gmtime 978307199) = "2000-12-31_23:59:59"%string.
Proof. vm_compute. repeat split; reflexivity. Qed.

(** ** Calendar and label ordering *)

Lemma yoe_range doe :
  0 <= doe < 146097 -> 0 <= yoe_of doe <= 399 /\ 0 <= doy_of doe <= 365.
Proof.
  intros H. unfold doy_of, yoe_of. Z.to_euclidean_division_equations; lia.
Qed.

Lemma yoe_mono a b :
  0 <= a < 146097 -> 0 <= b < 146097 -> a <= b -> yoe_of a <= yoe_of b.
Proof.
  intros Ha Hb Hab. unfold yoe_of. Z.to_euclidean_division_equations; lia.
Qed.

Lemma mp_range doy :
  0 <= doy <= 365 -> 0 <= mp_of doy <= 11 /\ 1 <= dom_of doy <= 31.
Proof.
  intros H. unfold dom_of, mp_of. Z.to_euclidean_division_equations; lia.
Qed.

Lemma mp_mono a b : a <= b -> mp_of a <= mp_of b.
Proof.
  intros H. unfold mp_of. Z.to_euclidean_division_equations; lia.
Qed.

Lemma civil_from_days_unfold z :
  civil_from_days z =
  let doe := (z + 719468) mod 146097 in
  let era := (z + 719468) / 146097 in
  let mp := mp_of (doy_of doe) in
  let m := if mp <? 10 then mp + 3 else mp - 9 in
  (yoe_of doe + era * 400 + (if m <=? 2 then 1 else 0), m, dom_of (doy_of doe)).
Proof. reflexivity. Qed.

Lemma civil_mono z1 z2 :
  z1 < z2 -> civil_lt (civil_from_days z1) (civil_from_days z2).
Proof.
  intros Hlt. rewrite !civil_from_days_unfold. cbv zeta. unfold civil_lt.
  pose proof (Z.mod_pos_bound (z1 + 719468) 146097 ltac:(lia)) as Hb1.
  pose proof (Z.mod_pos_bound (z2 + 719468) 146097 ltac:(lia)) as Hb2.
  pose proof (Z.div_mod (z1 + 719468) 146097 ltac:(lia)) as E1.
  pose proof (Z.div_mod (z2 + 719468) 146097 ltac:(lia)) as E2.
  set (doe1 := (z1 + 719468) mod 146097) in *.
  set (doe2 := (z2 + 719468) mod 146097) in *.
  set (era1 := (z1 + 719468) / 146097) in *.
  set (era2 := (z2 + 719468) / 146097) in *.
  destruct (yoe_range doe1 Hb1) as [Hy1 Hd1].
  destruct (yoe_range doe2 Hb2) as [Hy2 Hd2].
  destruct (mp_range _ Hd1) as [Hm1 Hdm1].
  destruct (mp_range _ Hd2) as [Hm2 Hdm2].
  assert (Hera : era1 < era2 \/ (era1 = era2 /\ doe1 < doe2)) by lia.
  assert (Hyy : yoe_of doe1 + era1 * 400 < yoe_of doe2 + era2 * 400 \/
                (yoe_of doe1 + era1 * 400 = yoe_of doe2 + era2 * 400 /\
                 doy_of doe1 < doy_of doe2)).
  { destruct Hera as [He | [He Hdoe]]; [lia |].
    pose proof (yoe_mono doe1 doe2 Hb1 Hb2 ltac:(lia)) as Hmono.
    destruct (Z.eq_dec (yoe_of doe1) (yoe_of doe2)) as [Heq | Hne]; [| lia].
    right. split; [lia |]. unfold doy_of. rewrite Heq. lia. }
  assert (Hmd : yoe_of doe1 + era1 * 400 = yoe_of doe2 + era2 * 400 ->
                mp_of (doy_of doe1) < mp_of (doy_of doe2) \/
                (mp_of (doy_of doe1) = mp_of (doy_of doe2) /\
                 dom_of (doy_of doe1) < dom_of (doy_of doe2))).
  { intros Heq. destruct Hyy as [? | [_ Hdoy]]; [lia |].
    pose proof (mp_mono _ _ (Z.lt_le_incl _ _ Hdoy)) as Hmono.
    destruct (Z.eq_dec (mp_of (doy_of doe1)) (mp_of (doy_of doe2))) as [Hm | Hm]; [| lia].
    right. split; [done |]. unfold dom_of. rewrite Hm. lia. }
  clearbody doe1 doe2 era1 era2.
  generalize dependent (dom_of (doy_of doe1)). generalize dependent (dom_of (doy_of doe2)).
  generalize dependent (mp_of (doy_of doe1)). generalize dependent (mp_of (doy_of doe2)).
  intros mp2 Hmp2 mp1 Hmp1 d2 Hd2' d1 Hd1' Hmd.
  repeat case_match; lia.
Qed.

Lemma append_cons c s t : String c s +:+ t = String c (s +:+ t).
Proof. reflexivity. Qed.

Lemma append_nil t : "" +:+ t = t.
Proof. reflexivity. Qed.

Lemma digit_char_compare x y :
  0 <= x <= 9 -> 0 <= y <= 9 ->
  Ascii.compare (digit_char x) (digit_char y) = (x ?= y).
Proof.
  intros Hx Hy.
  assert (Ex : x = 0 \/ x = 1 \/ x = 2 \/ x = 3 \/ x = 4 \/ x = 5 \/ x = 6 \/
               x = 7 \/ x = 8 \/ x = 9) by lia.
  assert (Ey : y = 0 \/ y = 1 \/ y = 2 \/ y = 3 \/ y = 4 \/ y = 5 \/ y = 6 \/
               y = 7 \/ y = 8 \/ y = 9) by lia.
  clear Hx Hy.
  repeat (destruct Ex as [-> | Ex]); try subst x;
    repeat (destruct Ey as [-> | Ey]); try subst y; reflexivity.
Qed.

Lemma compare_same_head c s t :
  String.compare (String c s) (String c t) = String.compare s t.
Proof.
  simpl. replace (Ascii.compare c c) with Eq; [done |].
  symmetry. unfold Ascii.compare. apply N.compare_refl.
Qed.

Lemma compare_digit_head x y s t :
  0 <= x <= 9 -> 0 <= y <= 9 ->
  String.compare (String (digit_char x) s) (String (digit_char y) t) =
  match x ?= y with Eq => String.compare s t | c => c end.
Proof.
  intros Hx Hy. cbn [String.compare]. rewrite digit_char_compare by done.
  by destruct (x ?= y).
Qed.

Lemma compare_pad2 a b s t :
  0 <= a < 100 -> 0 <= b < 100 ->
  String.compare (pad2 a +:+ s) (pad2 b +:+ t) =
  match a ?= b with Eq => String.compare s t | c => c end.
Proof.
  intros Ha Hb. unfold pad2. rewrite !append_cons, !append_nil.
  rewrite !compare_digit_head by (Z.to_euclidean_division_equations; lia).
  destruct (Z.compare_spec (a / 10) (b / 10)) as [E1 | L1 | G1].
  - destruct (Z.compare_spec (a mod 10) (b mod 10)) as [E2 | L2 | G2];
      destruct (Z.compare_spec a b); try done;
      Z.to_euclidean_division_equations; lia.
  - destruct (Z.compare_spec a b); try done; Z.to_euclidean_division_equations; lia.
  - destruct (Z.compare_spec a b); try done; Z.to_euclidean_division_equations; lia.
Qed.

Lemma dec_digits_four fuel n acc :
  (4 <= fuel)%nat -> 1000 <= n <= 9999 ->
  dec_digits fuel n acc =
  String (digit_char (n / 1000)) (String (digit_char (n / 100 mod 10))
    (String (digit_char (n / 10 mod 10)) (String (digit_char (n mod 10)) acc))).
Proof.
  intros Hf Hn.
  do 4 (destruct fuel as [| fuel]; [lia |]).
  cbn [dec_digits].
  assert ((n <? 10) = false) as -> by lia.
  assert ((n / 10 <? 10) = false) as -> by (apply Z.ltb_ge; Z.to_euclidean_division_equations; lia).
  assert ((n / 10 / 10 <? 10) = false) as -> by (apply Z.ltb_ge; Z.to_euclidean_division_equations; lia).
  assert ((n / 10 / 10 / 10 <? 10) = true) as -> by (apply Z.ltb_lt; Z.to_euclidean_division_equations; lia).
  rewrite !Z.div_div by lia. cbn [Z.mul Pos.mul].
  f_equal. f_equal. rewrite Z.mod_small; [done |]. Z.to_euclidean_division_equations; lia.
Qed.

Lemma show_Z_four n :
  1000 <= n <= 9999 ->
  show_Z n =
  String (digit_char (n / 1000)) (String (digit_char (n / 100 mod 10))
    (String (digit_char (n / 10 mod 10)) (String (digit_char (n mod 10)) ""))).
Proof.
  intros Hn. unfold show_Z. assert ((n <? 0) = false) as -> by lia.
  apply dec_digits_four; [| done].
  assert (9 <= Z.log2 n) by (change 9 with (Z.log2 512); apply Z.log2_le_mono; lia).
  lia.
Qed.

Lemma compare_year a b s t :
  1000 <= a <= 9999 -> 1000 <= b <= 9999 ->
  String.compare (show_Z a +:+ s) (show_Z b +:+ t) =
  match a ?= b with Eq => String.compare s t | c => c end.
Proof.
  intros Ha Hb. rewrite !show_Z_four by done. rewrite !append_cons, !append_nil.
  rewrite !compare_digit_head by (Z.to_euclidean_division_equations; lia).
  destruct (Z.compare_spec (a / 1000) (b / 1000));
    [destruct (Z.compare_spec (a / 100 mod 10) (b / 100 mod 10));
     [destruct (Z.compare_spec (a / 10 mod 10) (b / 10 mod 10));
      [destruct (Z.compare_spec (a mod 10) (b mod 10)) | |] | |] | |];
    destruct (Z.compare_spec a b); try done;
    Z.to_euclidean_division_equations; lia.
Qed.

Lemma civil_range z :
  let '(y, m, d) := civil_from_days z in 1 <= m <= 12 /\ 1 <= d <= 31.
Proof.
  rewrite civil_from_days_unfold. cbv zeta.
  pose proof (Z.mod_pos_bound (z + 719468) 146097 ltac:(lia)) as Hb.
  destruct (yoe_range _ Hb) as [_ Hd]. destruct (mp_range _ Hd) as [Hm Hdm].
  split; [case_match; lia | done].
Qed.

Lemma civil_year_range z :
  0 <= z <= 2932896 -> 1970 <= (civil_from_days z).1.1 <= 9999.
Proof.
  intros [Hlo Hhi]. split.
  - destruct (Z.eq_dec z 0) as [-> | Hne]; [vm_compute; discriminate |].
    pose proof (civil_mono 0 z ltac:(lia)) as H.
    change (civil_from_days 0) with (1970, 1, 1) in H.
    destruct (civil_from_days z) as [[y m] d]. simpl in *. lia.
  - destruct (Z.eq_dec z 2932896) as [-> | Hne]; [vm_compute; discriminate |].
    pose proof (civil_mono z 2932896 ltac:(lia)) as H.
    change (civil_from_days 2932896) with (9999, 12, 31) in H.
    destruct (civil_from_days z) as [[y m] d]. simpl in *. lia.
Qed.

Lemma strftime_format tm :
  strftime TIME_FORMAT tm =
  show_Z (tm_year tm) +:+ String "-" (pad2 (tm_mon tm) +:+ String "-"
    (pad2 (tm_mday tm) +:+ String "_" (pad2 (tm_hour tm) +:+ String ":"
      (pad2 (tm_min tm) +:+ String ":" (pad2 (tm_sec tm) +:+ ""))))).
Proof. reflexivity. Qed.

Lemma append_assoc' (a b c : string) : (a +:+ b) +:+ c = a +:+ (b +:+ c).
Proof. induction a as [| x a IH]; [done |]. rewrite !append_cons. by rewrite IH. Qed.

Lemma gmtime_mono t1 t2 : t1 < t2 -> tm_lt (gmtime t1) (gmtime t2).
Proof.
  intros Hlt. unfold gmtime, tm_lt.
  assert (Hd : t1 / 86400 < t2 / 86400 \/
               (t1 / 86400 = t2 / 86400 /\ t1 mod 86400 < t2 mod 86400))
    by (Z.to_euclidean_division_equations; lia).
  destruct Hd as [Hd | [Hd Hr]].
  - pose proof (civil_mono _ _ Hd) as H.
    destruct (civil_from_days (t1 / 86400)) as [[y1 m1] d1].
    destruct (civil_from_days (t2 / 86400)) as [[y2 m2] d2].
    simpl in *. lia.
  - rewrite Hd. destruct (civil_from_days (t2 / 86400)) as [[y2 m2] d2]. simpl.
    right; split; [done |]. right; split; [done |]. right; split; [done |].
    pose proof (Z.mod_pos_bound t1 86400 ltac:(lia)).
    pose proof (Z.mod_pos_bound t2 86400 ltac:(lia)).
    generalize dependent (t1 mod 86400). generalize dependent (t2 mod 86400).
    intros r2 Hr2 r1 Hr Hr1. Z.to_euclidean_division_equations; lia.
Qed.

Lemma gmtime_four_digit t :
  0 <= t < 253402300800 -> tm_four_digit (gmtime t).
Proof.
  intros Ht. unfold tm_four_digit, gmtime.
  assert (Hz : 0 <= t / 86400 <= 2932896) by (Z.to_euclidean_division_equations; lia).
  pose proof (civil_year_range _ Hz) as Hy. pose proof (civil_range (t / 86400)) as Hr.
  destruct (civil_from_days (t / 86400)) as [[y m] d]. simpl in *.
  pose proof (Z.mod_pos_bound t 86400 ltac:(lia)).
  generalize dependent (t mod 86400). intros r Hr'.
  repeat split; try lia; Z.to_euclidean_division_equations; lia.
Qed.

Lemma strftime_lt a b r1 r2 :
  tm_four_digit a -> tm_four_digit b -> tm_lt a b ->
  str_lt (strftime TIME_FORMAT a +:+ r1) (strftime TIME_FORMAT b +:+ r2).
Proof.
  intros (Ha1 & Ha2 & Ha3 & Ha4 & Ha5 & Ha6) (Hb1 & Hb2 & Hb3 & Hb4 & Hb5 & Hb6) Hlt.
  unfold str_lt. rewrite !strftime_format.
  repeat first [rewrite append_assoc' | rewrite append_cons].
  rewrite compare_year by lia.
  destruct (Z.compare_spec (tm_year a) (tm_year b)); [| done | unfold tm_lt in Hlt; lia].
  rewrite compare_same_head, compare_pad2 by lia.
  destruct (Z.compare_spec (tm_mon a) (tm_mon b)); [| done | unfold tm_lt in Hlt; lia].
  rewrite compare_same_head, compare_pad2 by lia.
  destruct (Z.compare_spec (tm_mday a) (tm_mday b)); [| done | unfold tm_lt in Hlt; lia].
  rewrite compare_same_head, compare_pad2 by lia.
  destruct (Z.compare_spec (tm_hour a) (tm_hour b)); [| done | unfold tm_lt in Hlt; lia].
  rewrite compare_same_head, compare_pad2 by lia.
  destruct (Z.compare_spec (tm_min a) (tm_min b)); [| done | unfold tm_lt in Hlt; lia].
  rewrite compare_same_head, compare_pad2 by lia.
  destruct (Z.compare_spec (tm_sec a) (tm_sec b)); [| done | unfold tm_lt in Hlt; lia].
  unfold tm_lt in Hlt; lia.
Qed.

(** ** Paths *)

Lemma no_slash_app a b :
  no_slash (a +:+ b) = no_slash a && no_slash b.
Proof.
  induction a as [| c a IH]; [done |].
  rewrite append_cons. cbn [no_slash]. rewrite IH. by rewrite andb_assoc.
Qed.

Lemma split_last_no_slash n : no_slash n = true -> split_last n = None.
Proof.
  induction n as [| c n IH]; [done |]. cbn [no_slash split_last].
  intros [Hc Hn]%andb_prop. rewrite (IH Hn).
  by destruct (Ascii.eqb c "/").
Qed.

Lemma split_last_join d n :
  no_slash n = true -> split_last (d +:+ "/" +:+ n) = Some (d, n).
Proof.
  intros Hn. induction d as [| c d IH].
  - rewrite append_nil, append_cons, append_nil. cbn [split_last].
    by rewrite (split_last_no_slash n Hn).
  - rewrite append_cons. cbn [split_last]. by rewrite IH.
Qed.

Lemma path_split_join d n :
  no_slash n = true -> path_split (d +:+ "/" +:+ n) = (d, n).
Proof. intros Hn. unfold path_split. by rewrite split_last_join. Qed.

Lemma fs_write_join d n c (f : gmap string (gmap string string)) e :
  no_slash n = true -> f !! d = Some e ->
  fs_write (d +:+ "/" +:+ n) c f = Some (<[d := <[n := c]> e]> f).
Proof. intros Hn He. unfold fs_write. rewrite path_split_join by done. by rewrite He. Qed.

Lemma fs_read_join d n (f : gmap string (gmap string string)) :
  no_slash n = true -> fs_read (d +:+ "/" +:+ n) f = file_at f d n.
Proof. intros Hn. unfold fs_read. by rewrite path_split_join. Qed.

(** *** [os.path.splitext] on the paths built by [process] *)

Lemma length_append (a b : string) :
  String.length (a +:+ b) = (String.length a + String.length b)%nat.
Proof. induction a as [| c a IH]; [done |]. rewrite append_cons. cbn. by rewrite IH. Qed.

Lemma rfind_bounds c s : -1 <= rfind c s < Z.of_nat (String.length s).
Proof.
  induction s as [| x s IH]; cbn [rfind String.length]; [lia |].
  destruct (0 <=? rfind c s) eqn:E; [lia |]. destruct (Ascii.eqb x c); lia.
Qed.

Lemma rfind_no_slash f : no_slash f = true -> rfind "/" f = -1.
Proof.
  induction f as [| c f IH]; [done |]. cbn [no_slash rfind].
  intros [Hc Hf]%andb_prop. rewrite (IH Hf). cbn.
  by destruct (Ascii.eqb c "/").
Qed.

Lemma rfind_app_found c a b :
  0 <= rfind c b -> rfind c (a +:+ b) = Z.of_nat (String.length a) + rfind c b.
Proof.
  intros Hb. induction a as [| x a IH]; [rewrite append_nil; cbn; lia |].
  rewrite append_cons. cbn [rfind String.length]. rewrite IH.
  assert ((0 <=? Z.of_nat (String.length a) + rfind c b) = true) as -> by lia.
  lia.
Qed.

Lemma rfind_app_missing c a b :
  rfind c b = -1 -> rfind c (a +:+ b) = rfind c a.
Proof.
  intros Hb. induction a as [| x a IH]; [by rewrite append_nil |].
  rewrite append_cons. cbn [rfind]. by rewrite IH.
Qed.

Lemma substring_skip a b n m :
  String.substring (String.length a + n) m (a +:+ b) = String.substring n m b.
Proof. induction a as [| c a IH]; [done |]. rewrite append_cons. cbn. apply IH. Qed.

Lemma substring_keep a b k :
  String.substring 0 (String.length a + k) (a +:+ b) = a +:+ String.substring 0 k b.
Proof.
  induction a as [| c a IH]; [done |]. rewrite !append_cons. cbn. by rewrite IH.
Qed.

Lemma substring_enough s : forall n m m',
  (String.length s <= n + m)%nat -> (String.length s <= n + m')%nat ->
  String.substring n m s = String.substring n m' s.
Proof.
  induction s as [| c s IH]; intros n m m' H H'.
  - by destruct n, m, m'.
  - cbn [String.length] in *. destruct n as [| n].
    + destruct m as [| m], m' as [| m']; try lia. cbn. f_equal. apply IH; lia.
    + cbn. apply IH; lia.
Qed.

Lemma str_drop_join a b n :
  0 <= n ->
  str_drop (Z.of_nat (String.length a) + n) (a +:+ b) = str_drop n b.
Proof.
  intros Hn. unfold str_drop.
  replace (Z.to_nat (Z.of_nat (String.length a) + n))
    with (String.length a + Z.to_nat n)%nat by lia.
  rewrite substring_skip. apply substring_enough; rewrite ?length_append; lia.
Qed.

Lemma str_take_join a b n :
  0 <= n ->
  str_take (Z.of_nat (String.length a) + n) (a +:+ b) = a +:+ str_take n b.
Proof.
  intros Hn. unfold str_take.
  replace (Z.to_nat (Z.of_nat (String.length a) + n))
    with (String.length a + Z.to_nat n)%nat by lia.
  apply substring_keep.
Qed.

Lemma substring_all s : forall m,
  (String.length s <= m)%nat -> String.substring 0 m s = s.
Proof.
  induction s as [| c s IH]; intros [| m] H; cbn in *; try done; try lia.
  f_equal. apply IH. lia.
Qed.

Lemma str_drop_zero s : str_drop 0 s = s.
Proof. unfold str_drop. change (Z.to_nat 0) with 0%nat. by apply substring_all. Qed.

(** [os.path.splitext] only looks at the last component. *)
Lemma splitext_join d f :
  no_slash f = true ->
  splitext (d +:+ "/" +:+ f) = (d +:+ "/" +:+ (splitext f).1, (splitext f).2).
Proof.
  intros Hf. unfold splitext.
  pose proof (rfind_no_slash f Hf) as Hsep.
  pose proof (rfind_bounds "." f) as Hdot.
  pose proof (rfind_bounds "." d) as Hdd.
  assert (Hsl : rfind "/" (d +:+ "/" +:+ f) = Z.of_nat (String.length d)).
  { rewrite rfind_app_found; rewrite append_cons, append_nil; cbn [rfind];
      rewrite Hsep; cbn; lia. }
  rewrite Hsl, Hsep.
  destruct (Z.eq_dec (rfind "." f) (-1)) as [Hnone | Hsome].
  - assert (Hd : rfind "." (d +:+ "/" +:+ f) = rfind "." d).
    { apply rfind_app_missing. rewrite append_cons, append_nil. cbn [rfind].
      rewrite Hnone. reflexivity. }
    rewrite Hd, Hnone.
    assert ((Z.of_nat (String.length d) <? rfind "." d) = false) as ->
      by (apply Z.ltb_ge; lia).
    reflexivity.
  - assert (Hd : rfind "." (d +:+ "/" +:+ f)
                 = Z.of_nat (String.length (d +:+ "/")) + rfind "." f).
    { rewrite <- (rfind_app_found "." (d +:+ "/") f) by lia.
      by rewrite append_assoc'. }
    rewrite length_append in Hd. cbn [String.length] in Hd.
    rewrite Hd.
    assert ((Z.of_nat (String.length d) <?
             Z.of_nat (String.length d + 1) + rfind "." f) = true) as ->
      by (apply Z.ltb_lt; lia).
    assert ((-1 <? rfind "." f) = true) as -> by (apply Z.ltb_lt; lia).
    assert (Hlen : Z.of_nat (String.length d + 1) = Z.of_nat (String.length (d +:+ "/"))).
    { rewrite length_append. reflexivity. }
    replace (Z.of_nat (String.length d) + 1) with (Z.of_nat (String.length (d +:+ "/") ) + 0)
      by (rewrite length_append; cbn [String.length]; lia).
    rewrite <- (append_assoc' d "/" f).
    rewrite (str_drop_join (d +:+ "/") f 0) by lia.
    replace (-1 + 1) with 0 by lia. rewrite str_drop_zero.
    replace (Z.of_nat (String.length d + 1) + rfind "." f - (Z.of_nat (String.length (d +:+ "/")) + 0))
      with (rfind "." f - 0) by lia.
    rewrite Hlen.
    rewrite (str_take_join (d +:+ "/") f) by lia.
    rewrite (str_drop_join (d +:+ "/") f) by lia.
    destruct (all_dots (str_take (rfind "." f - 0) f)); cbn [fst snd].
    + by rewrite append_assoc'.
    + by rewrite append_assoc'.
Qed.

Lemma artifact_in_directory d f :
  no_slash f = true ->
  artifact d f = d +:+ "/" +:+ ((splitext f).1 +:+ "_geo.tif").
Proof.
  intros Hf. unfold artifact. rewrite splitext_join by done. cbn [fst].
  by rewrite !append_assoc'.
Qed.

(** ** The monad *)

Ltac monad_unfold :=
  cbv beta iota zeta delta
    [bind gets modify ret raise isdir multi_index list_index print try_except
     save_conf gdal2tiles conf_index copyfile].

Lemma bind_ok {A B} (m : M A) (k : A -> M B) w a w' :
  m w = (Ok a, w') -> bind m k w = k a w'.
Proof. intros H. unfold bind. by rewrite H. Qed.

Lemma bind_raise {A B} (m : M A) (k : A -> M B) w e w' :
  m w = (Raise e, w') -> bind m k w = (Raise e, w').
Proof. intros H. unfold bind. by rewrite H. Qed.

Lemma for_each_app {A} (l1 l2 : list A) (body : A -> M unit) w :
  for_each (l1 ++ l2) body w = (for_each l1 body ;; for_each l2 body) w.
Proof.
  revert w. induction l1 as [| x l1 IH]; intros w; [done |].
  cbn [for_each app]. unfold bind.
  destruct (body x w) as [[[] | e] w1]; [| done].
  rewrite IH. by unfold bind.
Qed.

Lemma decide_is_Some {A} (x : option A) :
  bool_decide (is_Some x) = match x with Some _ => true | None => false end.
Proof.
  destruct x; [by rewrite bool_decide_true by eauto |].
  apply bool_decide_false. by intros [? ?].
Qed.

Lemma with_fs_id w : with_fs (fs w) w = w.
Proof. by destruct w. Qed.

(** ** Frame lemmas *)

Section Frame.
Context (R : relation World) `{!Reflexive R, !Transitive R}.

Lemma frame_ret {A} (a : A) : frame R (ret a).
Proof. intros w. apply reflexivity. Qed.

Lemma frame_raise {A} e : frame R (@raise A e).
Proof. intros w. apply reflexivity. Qed.

Lemma frame_gets {A} (g : World -> A) : frame R (gets g).
Proof. intros w. apply reflexivity. Qed.

Lemma frame_modify (g : World -> World) :
  (forall w, R w (g w)) -> frame R (modify g).
Proof. intros H w. apply H. Qed.

Lemma frame_bind {A C} (m : M A) (k : A -> M C) :
  frame R m -> (forall a, frame R (k a)) -> frame R (bind m k).
Proof.
  intros Hm Hk w. unfold bind. specialize (Hm w).
  destruct (m w) as [[a | e] w1]; cbn [snd] in *; [| done].
  etrans; [exact Hm | apply Hk].
Qed.

Lemma frame_try_except {A} (m : M A) (h : exn -> M A) :
  frame R m -> (forall e, frame R (h e)) -> frame R (try_except m h).
Proof.
  intros Hm Hh w. unfold try_except. specialize (Hm w).
  destruct (m w) as [[a | e] w1]; cbn [snd] in *; [done |].
  etrans; [exact Hm | apply Hh].
Qed.

Lemma frame_for_each {A} (l : list A) (body : A -> M unit) :
  (forall x, frame R (body x)) -> frame R (for_each l body).
Proof.
  intros Hb. induction l as [| x l IH]; [apply frame_ret |].
  cbn [for_each]. apply frame_bind; [apply Hb | done].
Qed.

Lemma frame_if {A} (b : bool) (m1 m2 : M A) :
  frame R m1 -> frame R m2 -> frame R (if b then m1 else m2).
Proof. by destruct b. Qed.
End Frame.

#[global] Instance same_refl {B} (f : World -> B) : Reflexive (same f).
Proof. by intros w. Qed.

#[global] Instance same_trans {B} (f : World -> B) : Transitive (same f).
Proof. unfold same. intros w1 w2 w3 H1 H2. congruence. Qed.

#[global] Instance extends_with_refl P : Reflexive (extends_with P).
Proof. intros w. exists []. by rewrite app_nil_r. Qed.

#[global] Instance extends_with_trans P : Transitive (extends_with P).
Proof.
  intros w1 w2 w3 (e1 & H1 & F1) (e2 & H2 & F2). exists (e1 ++ e2).
  rewrite H2, H1, app_assoc. split; [done |]. by apply Forall_app.
Qed.

Section Preserves.
Context {B : Type} (f : World -> B).

Lemma preserves_ret {A} (a : A) : preserves f (ret a).
Proof. apply (frame_ret (same f)). Qed.

Lemma preserves_modify (g : World -> World) :
  (forall w, f (g w) = f w) -> preserves f (modify g).
Proof. apply (frame_modify (same f)). Qed.

Lemma preserves_bind {A C} (m : M A) (k : A -> M C) :
  preserves f m -> (forall a, preserves f (k a)) -> preserves f (bind m k).
Proof. apply (frame_bind (same f)). Qed.

Lemma preserves_try_except {A} (m : M A) (h : exn -> M A) :
  preserves f m -> (forall e, preserves f (h e)) -> preserves f (try_except m h).
Proof. apply (frame_try_except (same f)). Qed.

Lemma preserves_for_each {A} (l : list A) (body : A -> M unit) :
  (forall x, preserves f (body x)) -> preserves f (for_each l body).
Proof. apply (frame_for_each (same f)). Qed.

Lemma preserves_if {A} (b : bool) (m1 m2 : M A) :
  preserves f m1 -> preserves f m2 -> preserves f (if b then m1 else m2).
Proof. apply (frame_if (same f)). Qed.
End Preserves.

Lemma fs_write_dom p c (f f' : gmap string (gmap string string)) :
  fs_write p c f = Some f' -> dom f' = dom f.
Proof.
  unfold fs_write. destruct (path_split p) as [d n].
  destruct (f !! d) as [e |] eqn:He; [| done]. intros Heq. injection Heq as <-.
  rewrite dom_insert_L. apply elem_of_dom_2 in He. set_solver.
Qed.

Lemma write_file_dirs p c : preserves dirs (write_file p c).
Proof.
  intros w. unfold write_file, dirs.
  destruct (fs_write p c (fs w)) as [f' |] eqn:E; [| done].
  cbn. by apply fs_write_dom in E.
Qed.

Lemma multi_index_preserves {A B} (f : World -> B) (l : list (string * A)) k :
  preserves f (multi_index l k).
Proof. unfold multi_index. destruct (multi_get l k); by intros w. Qed.

(** ** Ingestion *)

Section Ingest.
Context (root_path : string) (RATE : Z).

Abbreviation upload_page := (upload_page root_path RATE).
Abbreviation window_dir := (window_dir root_path RATE).
Abbreviation current_entries := (current_entries root_path RATE).

(** A POST request with a single file part. *)
Lemma upload_single w key fields fname content category :
  multi_get fields "sat_type" = Some category ->
  no_slash category = true -> no_slash fname = true ->
  upload_page (mk_request POST fields [(key, mk_file fname content)]) w =
  (Ok tt,
   with_fs (<[window_dir (start_date w) :=
              if re_match PATTERN fname
              then <[category +:+ "_" +:+ fname := content]> (current_entries w)
              else current_entries w]> (fs w)) w).
Proof.
  intros Hform Hc Hf. unfold upload_page, current_entries, window_dir.
  cbn [method files form multi_keys filter list_filter for_each].
  assert (Hname : no_slash (category +:+ "_" +:+ fname) = true).
  { rewrite !no_slash_app, Hc, Hf. done. }
  monad_unfold. cbn [multi_get]. rewrite String.eqb_refl, Hform.
  monad_unfold. cbn [filename stream].
  remember (root_path +:+ "/images/img" +:+ get_interval (start_date w) RATE)
    as dir eqn:Edir.
  rewrite decide_is_Some.
  destruct (fs w !! dir) as [e |] eqn:Hdir.
  - cbn [negb default].
    destruct (re_match PATTERN fname).
    + unfold write_file. by rewrite (fs_write_join _ _ _ _ e).
    + rewrite insert_id by done. by rewrite with_fs_id.
  - cbn [negb default].
    unfold mkdir. rewrite Hdir.
    destruct (re_match PATTERN fname); [| done].
    unfold write_file. cbn [fs with_fs].
    rewrite (fs_write_join _ _ _ _ ∅) by (done || apply lookup_insert_eq).
    unfold with_fs. cbn [fs start_date conf conf_json trace].
    by rewrite insert_insert_eq.
Qed.
(** Whatever a POST request carries, the current window's directory
    exists when the handler is done. *)
Lemma upload_creates_directory w fields parts :
  window_dir (start_date w) ∈
    dirs (upload_page (mk_request POST fields parts) w).2.
Proof.
  unfold upload_page. cbn [method files form].
  unfold bind at 1. unfold gets at 1. unfold bind at 1. unfold isdir, gets.
  rewrite decide_is_Some. fold (window_dir (start_date w)).
  set (body := fun key : string => _).
  assert (Hbody : preserves dirs (for_each (multi_keys parts) body)).
  { apply preserves_for_each. intros key. unfold body.
    apply preserves_bind; [apply multi_index_preserves |]. intros file.
    apply preserves_if; [| apply preserves_ret].
    apply preserves_bind; [apply multi_index_preserves |]. intros sat.
    apply write_file_dirs. }
  destruct (fs w !! window_dir (start_date w)) as [e |] eqn:Hdir; cbn [negb].
  - unfold bind, ret. rewrite Hbody. by apply elem_of_dom_2 in Hdir.
  - unfold bind, mkdir. rewrite Hdir. rewrite Hbody.
    unfold dirs. cbn [fs with_fs]. rewrite dom_insert_L. set_solver.
Qed.
End Ingest.

(** ** Reconciliation *)

Lemma not_processed_spec images listed f :
  f ∈ not_processed images listed <->
  (f ∈ listed) /\ (f ∉ images) /\
  (forall x, x ∈ images -> f <> (splitext x).1 +:+ "_geo.tif") /\
  f <> "merged.tif".
Proof.
  unfold not_processed. rewrite list_elem_of_filter.
  rewrite elem_of_list_to_set, elem_of_map.
  split.
  - intros [(H1 & H2 & H3) H4]. repeat split; try done.
    intros x Hx ->. apply H2. exists x. by rewrite elem_of_list_to_set.
  - intros (H1 & H2 & H3 & H4). repeat split; try done.
    intros (x & -> & Hx). rewrite elem_of_list_to_set in Hx. by apply (H3 x).
Qed.

(** The artifact of a snapshot file lies in the window's directory under
    the name that reconciliation leaves in place. *)
Lemma artifact_is_not_straggler dir_path images listed f :
  f ∈ images -> no_slash f = true ->
  exists n, artifact dir_path f = dir_path +:+ "/" +:+ n /\
            n ∉ not_processed images listed.
Proof.
  intros Hf Hns. exists ((splitext f).1 +:+ "_geo.tif").
  split; [by apply artifact_in_directory |].
  rewrite not_processed_spec. intros (_ & _ & H & _). by apply (H f).
Qed.

Lemma listing_elem (e : gmap string string) n :
  n ∈ listing e <-> is_Some (e !! n).
Proof.
  unfold listing. rewrite list_elem_of_fmap. split.
  - intros ([k v] & -> & Hkv). apply elem_of_map_to_list in Hkv. eauto.
  - intros [v Hv]. exists (n, v). split; [done |]. by apply elem_of_map_to_list.
Qed.

Lemma listing_NoDup (e : gmap string string) : NoDup (listing e).
Proof. apply NoDup_fst_map_to_list. Qed.

Lemma not_processed_NoDup images listed :
  NoDup listed -> NoDup (not_processed images listed).
Proof. intros H. unfold not_processed. by apply NoDup_filter. Qed.

Lemma relocate_lookup l : forall e en f,
  NoDup l -> (forall x, x ∈ l -> is_Some (e !! x)) ->
  (relocate l (e, en)).1 !! f = (if decide (f ∈ l) then None else e !! f) /\
  (relocate l (e, en)).2 !! f = (if decide (f ∈ l) then e !! f else en !! f).
Proof.
  induction l as [| x l IH]; intros e en f Hnd Hin.
  - cbn [relocate fst snd]. by rewrite !decide_False by set_solver.
  - apply NoDup_cons in Hnd as [Hx Hnd].
    destruct (Hin x ltac:(set_solver)) as [c Hc].
    cbn [relocate fst snd]. rewrite Hc.
    destruct (IH (delete x e) (<[x := c]> en) f Hnd) as [H1 H2].
    { intros y Hy. rewrite lookup_delete_ne by (intros ->; done).
      apply Hin. set_solver. }
    rewrite H1, H2. clear H1 H2 IH.
    destruct (decide (f = x)) as [-> | Hne].
    + split; repeat case_decide; try set_solver.
      * by rewrite lookup_delete_eq.
      * by rewrite lookup_insert_eq.
    + split; repeat case_decide; try set_solver.
      all: by rewrite ?lookup_delete_ne, ?lookup_insert_ne by done.
Qed.

Section Rename.
Context (dir new : string) (Hne : dir <> new).

Lemma rename_step w e en x c :
  no_slash x = true ->
  fs w !! dir = Some e -> fs w !! new = Some en -> e !! x = Some c ->
  rename (dir +:+ "/" +:+ x) (new +:+ "/" +:+ x) w =
  (Ok tt, with_fs (<[new := <[x := c]> en]> (<[dir := delete x e]> (fs w))) w).
Proof.
  intros Hx Hd Hn Hc. unfold rename. rewrite !path_split_join by done.
  unfold file_at. rewrite Hd. cbn [mbind option_bind]. rewrite Hc, Hn.
  do 2 f_equal. apply map_eq. intros k.
  destruct (decide (k = new)) as [-> | Hk].
  - rewrite lookup_insert_eq, lookup_alter_eq, lookup_alter_ne, Hn by done. done.
  - rewrite lookup_insert_ne, lookup_alter_ne by done.
    destruct (decide (k = dir)) as [-> | Hk'].
    + by rewrite lookup_insert_eq, lookup_alter_eq, Hd.
    + by rewrite lookup_insert_ne, lookup_alter_ne.
Qed.

Lemma rename_loop l : forall w e en,
  NoDup l ->
  (forall x, x ∈ l -> no_slash x = true /\ is_Some (e !! x)) ->
  fs w !! dir = Some e -> fs w !! new = Some en ->
  for_each l (fun file => rename (dir +:+ "/" +:+ file) (new +:+ "/" +:+ file)) w =
  (Ok tt, with_fs (<[new := (relocate l (e, en)).2]>
                     (<[dir := (relocate l (e, en)).1]> (fs w))) w).
Proof.
  induction l as [| x l IH]; intros w e en Hnd Hin Hd Hn.
  - cbn [for_each relocate fst snd]. unfold ret.
    by rewrite (insert_id _ dir e), (insert_id _ new en), with_fs_id.
  - apply NoDup_cons in Hnd as [Hx Hnd].
    destruct (Hin x ltac:(set_solver)) as [Hsl [c Hc]].
    cbn [for_each relocate fst snd]. rewrite Hc.
    erewrite bind_ok by (by apply rename_step).
    erewrite IH; first last.
    + cbn [fs with_fs]. by rewrite lookup_insert_eq.
    + cbn [fs with_fs]. by rewrite lookup_insert_ne, lookup_insert_eq.
    + intros y Hy. split; [apply Hin; set_solver |].
      rewrite lookup_delete_ne by (intros ->; done). apply Hin. set_solver.
    + done.
    + unfold with_fs. cbn [fs start_date conf conf_json trace]. do 2 f_equal.
      apply map_eq. intros k.
      destruct (decide (k = new)) as [-> | Hk]; [by rewrite !lookup_insert_eq |].
      rewrite !(lookup_insert_ne _ new) by done.
      destruct (decide (k = dir)) as [-> | Hk']; [by rewrite !lookup_insert_eq |].
      rewrite !(lookup_insert_ne _ dir) by done.
      by rewrite !lookup_insert_ne.
Qed.
End Rename.

Section Reconcile.
Context (root_path : string) (RATE : Z).

Abbreviation move_unprocessed_files := (move_unprocessed_files root_path RATE).
Abbreviation next_dir w := (window_dir root_path RATE (start_date w)).

Lemma move_no_stragglers dir_path images w e :
  fs w !! dir_path = Some e ->
  not_processed images (listing e) = [] ->
  move_unprocessed_files dir_path images w = (Ok tt, w).
Proof.
  intros Hd Hnone. unfold move_unprocessed_files, bind, listdir.
  by rewrite Hd, Hnone.
Qed.

Lemma move_next_exists dir_path images w e :
  fs w !! dir_path = Some e ->
  not_processed images (listing e) <> [] ->
  is_Some (fs w !! next_dir w) ->
  move_unprocessed_files dir_path images w =
  (Raise (FileExistsError (next_dir w)), w).
Proof.
  intros Hd Hsome [en Hn]. unfold move_unprocessed_files, bind, listdir.
  rewrite Hd. destruct (not_processed images (listing e)) as [| x rest]; [done |].
  unfold gets, mkdir. fold (next_dir w). by rewrite Hn.
Qed.

Lemma move_relocates dir_path images w e :
  names_ok (fs w) ->
  fs w !! dir_path = Some e ->
  fs w !! next_dir w = None ->
  not_processed images (listing e) <> [] ->
  move_unprocessed_files dir_path images w =
  (Ok tt,
   with_fs (<[next_dir w := (relocate (not_processed images (listing e)) (e, ∅)).2]>
             (<[dir_path := (relocate (not_processed images (listing e)) (e, ∅)).1]>
                (fs w))) w).
Proof.
  intros Hok Hd Hn Hsome.
  assert (Hne : dir_path <> next_dir w) by (intros ->; congruence).
  unfold move_unprocessed_files, bind, listdir. rewrite Hd.
  pose proof (not_processed_NoDup images _ (listing_NoDup e)) as Hnd.
  assert (Hin : forall x, x ∈ not_processed images (listing e) ->
                          no_slash x = true /\ is_Some (e !! x)).
  { intros x [Hx _]%not_processed_spec. apply listing_elem in Hx.
    split; [by apply (Hok dir_path e) | done]. }
  destruct (not_processed images (listing e)) as [| x rest] eqn:Hnp; [done |].
  unfold gets, mkdir. fold (next_dir w). rewrite Hn.
  rewrite (rename_loop dir_path (next_dir w) Hne (x :: rest) _ e ∅ Hnd Hin).
  - unfold with_fs. cbn [fs start_date conf conf_json trace]. do 2 f_equal.
    apply map_eq. intros k.
    destruct (decide (k = next_dir w)) as [-> | Hk]; [by rewrite !lookup_insert_eq |].
    rewrite !(lookup_insert_ne _ (next_dir w)) by done.
    destruct (decide (k = dir_path)) as [-> | Hk']; [by rewrite !lookup_insert_eq |].
    rewrite !(lookup_insert_ne _ dir_path) by done.
    by rewrite lookup_insert_ne.
  - cbn [fs with_fs]. by rewrite lookup_insert_ne.
  - cbn [fs with_fs]. by rewrite lookup_insert_eq.
Qed.

Lemma move_preserves_globals dir_path images :
  preserves globals (move_unprocessed_files dir_path images).
Proof.
  intros w. unfold move_unprocessed_files, bind at 1, listdir.
  destruct (fs w !! dir_path) as [e |]; [| done].
  destruct (not_processed images (listing e)) as [| x rest]; [done |].
  unfold bind at 1, gets. unfold bind at 1, mkdir.
  destruct (fs w !! _); [done |].
  set (w1 := with_fs _ w).
  change (globals w) with (globals w1).
  refine (preserves_for_each globals _ _ _ w1). intros file w2. unfold rename.
  destruct (path_split _) as [ds ns]. destruct (path_split _) as [dd nd].
  destruct (file_at _ _ _); [| done]. by destruct (fs w2 !! dd).
Qed.
End Reconcile.

(** ** The per-file loop of [process] *)

Section Pipeline.
Context (root_path : string) (RATE : Z) (TLE_NOAA : string) (X : Collaborators).

Abbreviation process := (process TLE_NOAA X).
Abbreviation per_file_loop := (per_file_loop TLE_NOAA X).
Abbreviation stage := (stage TLE_NOAA X).
Abbreviation attempt := (attempt TLE_NOAA X).

Lemma process_one_attempt dir_path geos sats i f :
  geos !! i = Some (artifact dir_path f) ->
  sats !! i = Some (str_take 7 f) ->
  process_one TLE_NOAA X geos sats (i, dir_path +:+ "/" +:+ f) = attempt dir_path f.
Proof.
  intros Hg Hs. unfold process_one, attempt, stage, list_index.
  rewrite Hg, Hs. reflexivity.
Qed.

Lemma indexed_loop dir_path suf : forall pre w,
  for_each
    (zip (seq (List.length pre) (List.length suf))
         (map (fun f => dir_path +:+ "/" +:+ f) suf))
    (process_one TLE_NOAA X
       (map (artifact dir_path) (pre ++ suf))
       (map (fun f => str_take 7 f) (pre ++ suf))) w =
  for_each suf (attempt dir_path) w.
Proof.
  induction suf as [| f suf IH]; intros pre w; [done |].
  cbn [List.length seq map zip zip_with for_each].
  rewrite process_one_attempt; first last.
  - rewrite list_lookup_fmap, lookup_app_r by done.
    by rewrite Nat.sub_diag.
  - rewrite list_lookup_fmap, lookup_app_r by done.
    by rewrite Nat.sub_diag.
  - unfold bind. destruct (attempt dir_path f w) as [[[] | e] w1]; [| done].
    specialize (IH (pre ++ [f]) w1).
    rewrite length_app, Nat.add_1_r in IH. cbn [List.length] in IH.
    by rewrite <- !app_assoc in IH.
Qed.

Lemma per_file_loop_attempts dir_path images w :
  per_file_loop dir_path images w = for_each images (attempt dir_path) w.
Proof.
  unfold per_file_loop, enumerate. rewrite length_map.
  rewrite (map_map (fun f => dir_path +:+ "/" +:+ f)).
  apply (indexed_loop dir_path images []).
Qed.
End Pipeline.

Section Loop.
Context (TLE_NOAA : string) (X : Collaborators).

Abbreviation per_file_loop := (per_file_loop TLE_NOAA X).
Abbreviation stage := (stage TLE_NOAA X).
Abbreviation attempt := (attempt TLE_NOAA X).

Lemma call_frame ev f w :
  exists r fs', f (fs w) = (r, fs') /\
    call ev f w =
    (match r with None => Ok tt | Some e => Raise e end, with_fs fs' (log ev w)).
Proof.
  unfold call. destruct (f (fs w)) as [r fs']. exists r, fs'.
  split; [done |]. by destruct r.
Qed.

Lemma call_preserves_globals ev f : preserves globals (call ev f).
Proof.
  intros w. destruct (call_frame ev f w) as (r & fs' & _ & ->). done.
Qed.

Lemma call_logs (P : event -> Prop) ev f : P ev -> logs_only P (call ev f).
Proof.
  intros HP w. destruct (call_frame ev f w) as (r & fs' & _ & ->).
  exists [ev]. split; [done |]. by apply Forall_singleton.
Qed.

Lemma print_logs (P : event -> Prop) e : P (EvPrint e) -> logs_only P (print e).
Proof. intros HP w. exists [EvPrint e]. split; [done |]. by apply Forall_singleton. Qed.

Lemma stage_preserves_globals dir_path f : preserves globals (stage dir_path f).
Proof.
  unfold stage. repeat (apply preserves_bind; [apply call_preserves_globals | intros _]).
  apply call_preserves_globals.
Qed.

Lemma stage_logs dir_path f : logs_only loop_event (stage dir_path f).
Proof.
  unfold stage.
  repeat (apply (frame_bind (extends_with loop_event)); [by apply call_logs | intros _]).
  by apply call_logs.
Qed.

Lemma attempt_preserves_globals dir_path f : preserves globals (attempt dir_path f).
Proof.
  apply preserves_try_except; [apply stage_preserves_globals |].
  intros e. by apply preserves_modify.
Qed.

Lemma attempt_logs dir_path f : logs_only loop_event (attempt dir_path f).
Proof.
  apply (frame_try_except (extends_with loop_event)); [apply stage_logs |].
  intros e. by apply print_logs.
Qed.

(** What an iteration does with the outcome of the stages. *)
Lemma attempt_success dir_path f w w' :
  stage dir_path f w = (Ok tt, w') -> attempt dir_path f w = (Ok tt, w').
Proof. intros H. unfold attempt, try_except. by rewrite H. Qed.

Lemma attempt_failure dir_path f w e w' :
  stage dir_path f w = (Raise e, w') ->
  attempt dir_path f w = (Ok tt, log (EvPrint e) w').
Proof. intros H. unfold attempt, try_except. by rewrite H. Qed.

Lemma attempt_returns dir_path f w : (attempt dir_path f w).1 = Ok tt.
Proof.
  destruct (stage dir_path f w) as [[[] | e] w'] eqn:E.
  - by rewrite (attempt_success _ _ _ _ E).
  - by rewrite (attempt_failure _ _ _ _ _ E).
Qed.

Lemma attempts_return dir_path l : forall w,
  (for_each l (attempt dir_path) w).1 = Ok tt.
Proof.
  induction l as [| f l IH]; intros w; [done |].
  cbn [for_each]. unfold bind.
  pose proof (attempt_returns dir_path f w) as H.
  destruct (attempt dir_path f w) as [[[] | e] w1]; [apply IH | done].
Qed.

Lemma per_file_loop_returns dir_path images w :
  (per_file_loop dir_path images w).1 = Ok tt.
Proof. rewrite per_file_loop_attempts. apply attempts_return. Qed.

Lemma per_file_loop_preserves_globals dir_path images :
  preserves globals (per_file_loop dir_path images).
Proof.
  intros w. rewrite per_file_loop_attempts.
  refine (preserves_for_each globals _ _ _ w). intros f.
  apply attempt_preserves_globals.
Qed.

Lemma per_file_loop_logs dir_path images :
  logs_only loop_event (per_file_loop dir_path images).
Proof.
  intros w. rewrite per_file_loop_attempts.
  refine (frame_for_each (extends_with loop_event) _ _ _ w). intros f.
  apply attempt_logs.
Qed.

(** Every iteration starts by calling the preprocessing of its file. *)
Lemma attempt_calls_preprocess dir_path f w :
  EvPreprocess (dir_path +:+ "/" +:+ f) (artifact dir_path f)
    ∈ trace (attempt dir_path f w).2.
Proof.
  unfold attempt, try_except, stage. unfold bind at 1.
  destruct (call_frame (EvPreprocess (dir_path +:+ "/" +:+ f) (artifact dir_path f))
              (preprocess X (dir_path +:+ "/" +:+ f) (artifact dir_path f)) w)
    as (r & fs' & _ & ->).
  set (w1 := with_fs fs' _).
  assert (H1 : EvPreprocess (dir_path +:+ "/" +:+ f) (artifact dir_path f) ∈ trace w1).
  { unfold w1. cbn [trace with_fs log]. set_solver. }
  destruct r as [e |].
  - cbn [print modify log trace snd]. set_solver.
  - match goal with |- context [bind ?m ?k w1] =>
      pose proof (frame_bind (extends_with loop_event) m k) as Hf end.
    lazymatch type of Hf with ?A -> ?B -> _ =>
      assert (HA : A) by (by apply call_logs);
      assert (HB : B) by (intros _; by apply call_logs) end.
    destruct (Hf HA HB w1) as (evs & Hevs & _).
    match goal with |- context [bind ?m ?k w1] =>
      destruct (bind m k w1) as [[[] | e] w2] end; cbn [snd print modify log trace] in *.
    + rewrite Hevs. set_solver.
    + rewrite Hevs. set_solver.
Qed.

Lemma attempts_call_preprocess dir_path l : forall w g,
  g ∈ l ->
  EvPreprocess (dir_path +:+ "/" +:+ g) (artifact dir_path g)
    ∈ trace (for_each l (attempt dir_path) w).2.
Proof.
  induction l as [| f l IH]; intros w g Hg; [by apply elem_of_nil in Hg |].
  cbn [for_each]. unfold bind.
  pose proof (attempt_returns dir_path f w) as Hr.
  pose proof (attempt_calls_preprocess dir_path f w) as Hp.
  destruct (attempt dir_path f w) as [[[] | e] w1]; [| done]. cbn [snd] in Hp.
  apply elem_of_cons in Hg as [-> | Hg]; [| by apply IH].
  destruct (frame_for_each (extends_with loop_event) l (attempt dir_path)
              (attempt_logs dir_path) w1) as (evs & -> & _).
  set_solver.
Qed.
End Loop.

(** ** The merge and tiling stage of [process] *)

Section MergeStage.
Context (TLE_NOAA : string) (X : Collaborators).

Abbreviation process := (process TLE_NOAA X).
Abbreviation per_file_loop := (per_file_loop TLE_NOAA X).

Lemma georeferenced_artifacts dir_path images :
  map (fun f => (splitext f).1 +:+ "_geo.tif")
      (map (fun f => dir_path +:+ "/" +:+ f) images) =
  map (artifact dir_path) images.
Proof. by rewrite map_map. Qed.

Lemma save_conf_run w :
  save_conf w = (Ok tt, with_conf_json (json_dump (conf w)) w).
Proof. reflexivity. Qed.

(** After the loop, with no file in the snapshot. *)
Lemma process_none dir_path tms_path w :
  process dir_path tms_path [] w = (Ok tt, with_conf_json (json_dump (conf w)) w).
Proof. reflexivity. Qed.

(** After the loop, with two files or more in the snapshot. *)
Lemma process_many dir_path tms_path images w w1 :
  (2 <= List.length images)%nat ->
  per_file_loop dir_path images w = (Ok tt, w1) ->
  process dir_path tms_path images w =
  (call (EvMerge (map (artifact dir_path) images) (merged_path dir_path))
        (merge X (map (artifact dir_path) images) (merged_path dir_path)) ;;
   gdal2tiles X (merged_path dir_path) tms_path ;;
   save_conf) w1.
Proof.
  intros Hlen Hloop. unfold process, per_file_loop in *. cbv zeta in *.
  unfold bind at 1. rewrite Hloop. rewrite georeferenced_artifacts.
  rewrite length_map.
  assert ((1 <? List.length images)%nat = true) as -> by (apply Nat.ltb_lt; lia).
  unfold merged_path, bind.
  destruct (call _ _ w1) as [[[] | e] w2]; [| done]. done.
Qed.

(** After the loop, with a single file in the snapshot. *)
Lemma process_single dir_path tms_path f w w1 :
  per_file_loop dir_path [f] w = (Ok tt, w1) ->
  process dir_path tms_path [f] w =
  (copyfile (artifact dir_path f) (merged_path dir_path) ;;
   call (EvSetNodata (merged_path dir_path) 0)
        (set_nodata X (merged_path dir_path) 0) ;;
   gdal2tiles X (merged_path dir_path) tms_path ;;
   save_conf) w1.
Proof.
  intros Hloop. unfold process, per_file_loop in *. cbv zeta in *.
  unfold bind at 1. rewrite Hloop. rewrite georeferenced_artifacts.
  cbn [map List.length Nat.ltb Nat.leb Nat.eqb list_index lookup list_lookup].
  unfold merged_path, bind, ret.
  destruct (copyfile _ _ w1) as [[[] | e] w2]; [| done].
  destruct (call _ _ w2) as [[[] | e] w3]; [| done]. done.
Qed.
End MergeStage.

(** ** What [process] leaves untouched, and what it persists *)

Section ProcessFrame.
Context (TLE_NOAA : string) (X : Collaborators).

Abbreviation process := (process TLE_NOAA X).
Abbreviation per_file_loop := (per_file_loop TLE_NOAA X).
Abbreviation before_save := (before_save TLE_NOAA X).

Lemma preserves_weaken {A B C} (f : World -> B) (g : World -> C) (m : M A) :
  (forall w w', f w' = f w -> g w' = g w) -> preserves f m -> preserves g m.
Proof. intros Hfg Hm w. apply Hfg, Hm. Qed.

Lemma read_file_preserves {B} (f : World -> B) p : preserves f (read_file p).
Proof. intros w. unfold read_file. by destruct (fs_read p (fs w)). Qed.

Lemma write_file_preserves_globals p c : preserves globals (write_file p c).
Proof. intros w. unfold write_file. by destruct (fs_write p c (fs w)). Qed.

Lemma copyfile_preserves_globals src dst : preserves globals (copyfile src dst).
Proof.
  unfold copyfile. apply preserves_bind; [by apply preserves_modify | intros _].
  apply preserves_bind; [apply read_file_preserves | intros c].
  apply write_file_preserves_globals.
Qed.

Lemma gdal2tiles_preserves_globals merged tms :
  preserves globals (gdal2tiles X merged tms).
Proof. by apply preserves_modify. Qed.

Lemma list_index_preserves {B} (f : World -> B) l i : preserves f (list_index l i).
Proof. intros w. unfold list_index. by destruct (l !! i). Qed.

Lemma process_before_save dir_path tms_path images w :
  process dir_path tms_path images w =
  (before_save dir_path tms_path images ;; save_conf) w.
Proof.
  unfold process, before_save, per_file_loop. cbv zeta.
  rewrite georeferenced_artifacts. unfold bind.
  destruct (for_each _ _ w) as [[[] | e] w1]; [| done]. done.
Qed.

Lemma before_save_preserves_globals dir_path tms_path images :
  preserves globals (before_save dir_path tms_path images).
Proof.
  unfold before_save.
  apply preserves_bind; [apply per_file_loop_preserves_globals | intros _].
  cbv zeta. repeat apply preserves_if.
  - apply preserves_bind; [apply call_preserves_globals | intros _].
    apply gdal2tiles_preserves_globals.
  - apply preserves_bind; [apply list_index_preserves | intros geo0].
    apply preserves_bind; [apply copyfile_preserves_globals | intros _].
    apply preserves_bind; [apply call_preserves_globals | intros _].
    apply gdal2tiles_preserves_globals.
  - apply preserves_ret.
Qed.

Lemma process_preserves_cursor_conf dir_path tms_path images :
  preserves cursor_conf (process dir_path tms_path images).
Proof.
  intros w. rewrite process_before_save.
  refine (preserves_bind cursor_conf _ _ _ _ w).
  - apply (preserves_weaken globals); [| apply before_save_preserves_globals].
    unfold globals, cursor_conf. congruence.
  - intros _. apply preserves_bind; [done | intros c]. by apply preserves_modify.
Qed.

(** When [process] returns, the configuration file holds the in-memory
    configuration as it was when [process] was called. *)
Lemma process_persists dir_path tms_path images w w' :
  process dir_path tms_path images w = (Ok tt, w') ->
  conf_json w' = json_dump (conf w).
Proof.
  rewrite process_before_save. unfold bind at 1.
  pose proof (before_save_preserves_globals dir_path tms_path images w) as Hg.
  destruct (before_save dir_path tms_path images w) as [[[] | e] w1]; [| done].
  rewrite save_conf_run. intros [= <-]. cbn [conf_json with_conf_json].
  unfold same, globals in Hg. cbn [snd] in Hg. congruence.
Qed.
End ProcessFrame.

(** ** The tick *)

Section Tick.
Context (root_path : string) (RATE : Z) (TLE_NOAA : string) (X : Collaborators).

Abbreviation update := (update root_path RATE TLE_NOAA X).
Abbreviation process := (process TLE_NOAA X).
Abbreviation window_dir := (window_dir root_path RATE).
Abbreviation tms_dir := (tms_dir root_path RATE).
Abbreviation advance := (advance RATE).
Abbreviation move_unprocessed_files := (move_unprocessed_files root_path RATE).

(** An absent or empty window: only the cursor moves. *)
Lemma update_skips w :
  match fs w !! window_dir (start_date w) with
  | Some e => listing e = []
  | None => True
  end ->
  update w = (Ok tt, with_start_date (start_date w + RATE) w).
Proof.
  intros H. unfold update. monad_unfold. rewrite decide_is_Some.
  fold (window_dir (start_date w)). unfold listdir.
  destruct (fs w !! window_dir (start_date w)) as [e |] eqn:Hd; cbn [negb]; [| done].
  rewrite Hd, H. by rewrite bool_decide_true.
Qed.

(** A non-empty window: pipeline, advance, reconciliation, record. *)
Lemma update_processes w e :
  fs w !! window_dir (start_date w) = Some e -> listing e <> [] ->
  update w =
  (process (window_dir (start_date w)) (tms_dir (start_date w)) (listing e) ;;
   advance ;;
   move_unprocessed_files (window_dir (start_date w)) (listing e) ;;
   record_window (get_interval (start_date w) RATE)) w.
Proof.
  intros Hd Hne. unfold update.
  unfold bind at 1, gets at 1. unfold bind at 1, isdir, gets at 1.
  rewrite decide_is_Some. fold (window_dir (start_date w)).
  fold (tms_dir (start_date w)). rewrite Hd. cbn [negb].
  unfold bind at 1. unfold bind at 1, listdir at 1. rewrite Hd. unfold ret at 1.
  rewrite bool_decide_false by done.
  unfold bind at 1, listdir at 1. rewrite Hd.
  reflexivity.
Qed.
End Tick.

(* ================================================================== *)
(** * Part III: the claims *)
(* ================================================================== *)

(** ** Window labels *)

(** C9, as amended.  [get_interval] is a function of its two arguments
    alone, and for every instant [t >= 0] and width [w > 0] such that
    [t + w] is still in a four-digit year (before 10000-01-01 00:00:00 UTC),
    the label of [t + w] is lexically strictly greater than the label of
    [t]. *)
Theorem get_interval_lexical_order t w :
  0 <= t -> 0 < w -> t + w < 253402300800 ->
  str_lt (get_interval t w) (get_interval (t + w) w).
Proof.
  intros Ht Hw Hmax. unfold get_interval.
  apply strftime_lt.
  - apply gmtime_four_digit. lia.
  - apply gmtime_four_digit. lia.
  - apply gmtime_mono. lia.
Qed.

Lemma get_interval_lexical_order_witness :
  str_lt (get_interval 1559390400 600) (get_interval (1559390400 + 600) 600).
Proof. apply get_interval_lexical_order; lia. Defined.

(** C9 fails as stated: [%Y] is not of fixed width, so the label that
    starts in year 10000 sorts before the label that starts in 9999. *)
Lemma get_interval_year_10000 :
  0 <= 253402300799 /\ 0 < 1 /\
  get_interval 253402300799 1 = "9999-12-31_23:59:59_10000-01-01_00:00:00"%string /\
  get_interval (253402300799 + 1) 1 = "10000-01-01_00:00:00_10000-01-01_00:00:01"%string /\
  ~ str_lt (get_interval 253402300799 1) (get_interval (253402300799 + 1) 1).
Proof.
  repeat split; try lia; try (vm_compute; reflexivity).
  unfold str_lt. vm_compute. discriminate.
Qed.

(** ** Ingestion *)

Section IngestClaims.
Context (root_path : string) (RATE : Z).

Abbreviation upload_page := (upload_page root_path RATE).
Abbreviation window_dir := (window_dir root_path RATE).
Abbreviation current_entries := (current_entries root_path RATE).

Lemma file_at_insert (f : gmap string (gmap string string)) d e d' n :
  file_at (<[d := e]> f) d' n = if decide (d = d') then e !! n else file_at f d' n.
Proof.
  unfold file_at. case_decide as H.
  - subst. by rewrite lookup_insert_eq.
  - by rewrite lookup_insert_ne.
Qed.

Lemma current_entries_lookup w n :
  current_entries w !! n = file_at (fs w) (window_dir (start_date w)) n.
Proof.
  unfold current_entries, file_at.
  by destruct (fs w !! window_dir (start_date w)).
Qed.

(** C8, as amended.  For every upload [accept(category, filename, content)]
    whose category and filename contain no path separator: the handler
    raises nothing; if the filename matches the pattern, the content is
    then stored under [<category>_<filename>] in the current window's
    directory, whatever was stored under that name before, and no other
    file changes; if it does not match, no file changes at all. *)
Theorem upload_stores_matching_file w fields key fname content category :
  multi_get fields "sat_type" = Some category ->
  no_slash category = true -> no_slash fname = true ->
  let r := upload_page (mk_request POST fields [(key, mk_file fname content)]) w in
  let dir := window_dir (start_date w) in
  let name := category +:+ "_" +:+ fname in
  r.1 = Ok tt /\
  (re_match PATTERN fname = true ->
   file_at (fs r.2) dir name = Some content /\
   forall d n, (d, n) <> (dir, name) -> file_at (fs r.2) d n = file_at (fs w) d n) /\
  (re_match PATTERN fname = false ->
   forall d n, file_at (fs r.2) d n = file_at (fs w) d n).
Proof.
  intros Hform Hc Hf. cbv zeta.
  rewrite (upload_single root_path RATE w key fields fname content category) by done.
  cbn [fst snd fs with_fs]. split; [done |]. split.
  - intros ->. split.
    + by rewrite file_at_insert, decide_True, lookup_insert_eq.
    + intros d n Hdn. rewrite file_at_insert. case_decide as Hd; [| done].
      subst d. rewrite lookup_insert_ne by congruence.
      apply current_entries_lookup.
  - intros -> d n. rewrite file_at_insert. case_decide as Hd; [| done].
    subst d. apply current_entries_lookup.
Qed.

(** C10.  The dot before [png] in the pattern is a wildcard: the filename
    [SDRSharp_20190601_120000Z_137100000Hz_IQXpng] does not end in [.png],
    yet it matches and its upload is stored. *)
Theorem wildcard_name_is_stored w fields key content category :
  multi_get fields "sat_type" = Some category ->
  no_slash category = true ->
  ends_with ".png" wildcard_name = false /\
  re_match PATTERN wildcard_name = true /\
  let r := upload_page (mk_request POST fields [(key, mk_file wildcard_name content)]) w in
  r.1 = Ok tt /\
  file_at (fs r.2) (window_dir (start_date w)) (category +:+ "_" +:+ wildcard_name)
    = Some content.
Proof.
  intros Hform Hc.
  assert (Hm : re_match PATTERN wildcard_name = true) by (vm_compute; reflexivity).
  split; [vm_compute; reflexivity |]. split; [done |]. cbv zeta.
  rewrite (upload_single root_path RATE w key fields wildcard_name content category)
    by done.
  rewrite Hm. cbn [fst snd fs with_fs]. split; [done |].
  by rewrite file_at_insert, decide_True, lookup_insert_eq.
Qed.

Lemma multi_get_keys {A} (parts : list (string * A)) key :
  key ∈ multi_keys parts ->
  exists v, multi_get parts key = Some v /\ (key, v) ∈ parts.
Proof.
  induction parts as [| [k v] parts IH]; [by intros ?%elem_of_nil |].
  cbn [multi_keys multi_get]. intros Hk.
  destruct (String.eqb_spec k key) as [-> | Hne].
  - exists v. split; [done | left].
  - apply elem_of_cons in Hk as [-> | Hk]; [done |].
    apply list_elem_of_filter in Hk as [_ Hk].
    destruct (IH Hk) as (v' & Hv' & Hin). exists v'. split; [done | by right].
Qed.

(** C7, as amended.  A POST upload request none of whose files matches the
    pattern still leaves the current window's directory in existence: the
    handler creates it when absent, stores nothing in it and raises
    nothing.  So a window's directory exists when a file was ingested or
    carried into it, but also, possibly empty, when an upload request was
    merely handled during the window. *)
Theorem upload_without_match_creates_directory w fields parts :
  Forall (fun p => re_match PATTERN (filename p.2) = false) parts ->
  upload_page (mk_request POST fields parts) w =
  (Ok tt, with_fs (<[window_dir (start_date w) := current_entries w]> (fs w)) w).
Proof.
  intros Hnone. unfold upload_page. cbn [method files form].
  unfold bind at 1, gets at 1. unfold bind at 1, isdir, gets.
  rewrite decide_is_Some. fold (window_dir (start_date w)).
  set (body := fun key : string => _).
  assert (Hloop : forall keys w1,
            (forall k, k ∈ keys -> k ∈ multi_keys parts) ->
            for_each keys body w1 = (Ok tt, w1)).
  { induction keys as [| k keys IH]; intros w1 Hk; [done |].
    cbn [for_each]. unfold bind at 1.
    assert (body k w1 = (Ok tt, w1)) as ->.
    { destruct (multi_get_keys parts k) as (v & Hv & Hin); [apply Hk; left |].
      unfold body, bind, multi_index. rewrite Hv. unfold ret at 1.
      rewrite Forall_forall in Hnone. specialize (Hnone _ Hin).
      cbn [snd] in Hnone. by rewrite Hnone. }
    apply IH. intros k' Hk'. apply Hk. by right. }
  unfold current_entries. fold (window_dir (start_date w)).
  destruct (fs w !! window_dir (start_date w)) as [e |] eqn:Hd; cbn [negb default].
  - unfold bind, ret. rewrite Hloop by done.
    by rewrite insert_id, with_fs_id.
  - unfold bind, mkdir. rewrite Hd. by rewrite Hloop.
Qed.
End IngestClaims.

Lemma upload_stores_matching_file_witness :
  file_at
    (fs (upload_page sample_root sample_rate
           (accept_request "NOAA 19" capture_name "iq") empty_world).2)
    (window_dir sample_root sample_rate (start_date empty_world))
    ("NOAA 19" +:+ "_" +:+ capture_name) = Some "iq"%string.
Proof.
  destruct (upload_stores_matching_file sample_root sample_rate empty_world
              [("sat_type", "NOAA 19")]%string "file" capture_name "iq" "NOAA 19"
              eq_refl eq_refl eq_refl) as (_ & Hmatch & _).
  apply Hmatch. vm_compute. reflexivity.
Defined.

(** C8 fails as stated: the category is pasted into the path, so a
    category with a separator names a directory that does not exist; the
    file matches the pattern but is not stored and the error reaches the
    caller. *)
Lemma upload_category_with_separator :
  let r := upload_page sample_root sample_rate
             (accept_request "a/b" capture_name "iq") empty_world in
  re_match PATTERN capture_name = true /\
  r.1 = Raise (FileNotFoundError (sample_dir +:+ "/a/b_" +:+ capture_name)) /\
  file_at (fs r.2) sample_dir ("a/b_" +:+ capture_name) = None /\
  listing <$> (fs r.2 !! sample_dir) = Some [].
Proof. vm_compute. repeat split; reflexivity. Qed.

Lemma wildcard_name_is_stored_witness :
  file_at
    (fs (upload_page sample_root sample_rate
           (accept_request "NOAA 19" wildcard_name "iq") empty_world).2)
    (window_dir sample_root sample_rate (start_date empty_world))
    ("NOAA 19" +:+ "_" +:+ wildcard_name) = Some "iq"%string.
Proof.
  destruct (wildcard_name_is_stored sample_root sample_rate empty_world
              [("sat_type", "NOAA 19")]%string "file" "iq" "NOAA 19"
              eq_refl eq_refl) as (_ & _ & _ & Hstored).
  exact Hstored.
Defined.

Lemma upload_without_match_creates_directory_witness :
  upload_page sample_root sample_rate
    (accept_request "NOAA 19" "notes.txt" "hello") empty_world =
  (Ok tt,
   with_fs (<[window_dir sample_root sample_rate (start_date empty_world) :=
              current_entries sample_root sample_rate empty_world]> (fs empty_world))
     empty_world).
Proof.
  apply upload_without_match_creates_directory.
  apply Forall_cons. split; [vm_compute; reflexivity | apply Forall_nil_2].
Defined.

(** C7 fails as stated: a request with no matching file creates the
    directory of the current window, which then exists with no file in
    it. *)
Lemma unmatched_upload_leaves_empty_directory :
  let r := upload_page sample_root sample_rate
             (accept_request "NOAA 19" "notes.txt" "hello") empty_world in
  re_match PATTERN "notes.txt" = false /\
  fs empty_world !! sample_dir = None /\
  r.1 = Ok tt /\
  listing <$> (fs r.2 !! sample_dir) = Some [].
Proof. vm_compute. repeat split; reflexivity. Qed.

(** ** The batch pipeline *)

Section PipelineClaims.
Context (TLE_NOAA : string) (X : Collaborators).

Abbreviation process := (process TLE_NOAA X).
Abbreviation per_file_loop := (per_file_loop TLE_NOAA X).
Abbreviation stage := (stage TLE_NOAA X).
Abbreviation attempt := (attempt TLE_NOAA X).

(** C3, as amended.  If a stage of file [f] raises [e] (in the world
    reached after the files before it), the exception is caught and
    printed, not propagated: the loop goes on with the files after [f]
    from the world the failed stage left, with [e] printed and nothing
    undone; the loop returns normally, and the stages of every later file
    are started.  Nothing is said of the failed file's artifact: what the
    stages wrote before raising stays. *)
Theorem per_file_failure_is_isolated dir_path before f after w e :
  let w0 := (per_file_loop dir_path before w).2 in
  (stage dir_path f w0).1 = Raise e ->
  let r := per_file_loop dir_path (before ++ f :: after) w in
  r = per_file_loop dir_path after (log (EvPrint e) (stage dir_path f w0).2) /\
  r.1 = Ok tt /\
  EvPrint e ∈ trace r.2 /\
  forall g, g ∈ after ->
    EvPreprocess (dir_path +:+ "/" +:+ g) (artifact dir_path g) ∈ trace r.2.
Proof.
  cbv zeta. intros Hraise.
  assert (Hr : per_file_loop dir_path (before ++ f :: after) w =
               per_file_loop dir_path after
                 (log (EvPrint e) (stage dir_path f (per_file_loop dir_path before w).2).2)).
  { rewrite !per_file_loop_attempts, for_each_app in *. unfold bind at 1.
    pose proof (attempts_return TLE_NOAA X dir_path before w) as Hb.
    destruct (for_each before (attempt dir_path) w) as [[[] | e0] w0]; [| done].
    cbn [snd] in *. cbn [for_each]. unfold bind at 1.
    destruct (stage dir_path f w0) as [[[] | e1] wf] eqn:Hs;
      cbn [fst snd] in *; [done |].
    injection Hraise as ->.
    by rewrite (attempt_failure _ _ _ _ _ _ _ Hs). }
  rewrite Hr. split; [done |]. split; [apply per_file_loop_returns |].
  rewrite per_file_loop_attempts. split.
  - destruct (frame_for_each (extends_with loop_event) after (attempt dir_path)
                (attempt_logs TLE_NOAA X dir_path)
                (log (EvPrint e) (stage dir_path f (per_file_loop dir_path before w).2).2))
      as (evs & -> & _).
    cbn [trace log]. set_solver.
  - intros g Hg. by apply attempts_call_preprocess.
Qed.

(** C1, as amended.  The branch taken after the loop depends on the
    number of files in the snapshot, not on how many of them were
    processed successfully.  With two files or more, [merge] is called on
    the artifact paths of all of them, and the tiling command is run if
    [merge] returns.  With exactly one, its artifact path is copied to the
    merged-output path; if the copy succeeds [set_nodata] is called on the
    merged output, and the tiling command is run if that returns.  With
    none, nothing is merged, copied or tiled. *)
Theorem process_branches_on_snapshot_size dir_path tms_path images w :
  exists w1 evs,
    per_file_loop dir_path images w = (Ok tt, w1) /\
    trace w1 = trace w ++ evs /\ Forall loop_event evs /\
    trace (process dir_path tms_path images w).2 = trace w1 ++
      match images with
      | [] => []
      | [f] =>
          EvCopyfile (artifact dir_path f) (merged_path dir_path) ::
          match fs_read (artifact dir_path f) (fs w1) with
          | None => []
          | Some c =>
              match fs_write (merged_path dir_path) c (fs w1) with
              | None => []
              | Some f1 =>
                  EvSetNodata (merged_path dir_path) 0 ::
                  match (set_nodata X (merged_path dir_path) 0 f1).1 with
                  | Some _ => []
                  | None => [EvSystem (tile_command dir_path tms_path)]
                  end
              end
          end
      | _ =>
          EvMerge (map (artifact dir_path) images) (merged_path dir_path) ::
          match (merge X (map (artifact dir_path) images) (merged_path dir_path)
                   (fs w1)).1 with
          | Some _ => []
          | None => [EvSystem (tile_command dir_path tms_path)]
          end
      end.
Proof.
  pose proof (per_file_loop_returns TLE_NOAA X dir_path images w) as Hret.
  destruct (per_file_loop_logs TLE_NOAA X dir_path images w) as (evs & Hevs & Hall).
  destruct (per_file_loop dir_path images w) as [[[] | e] w1] eqn:Hloop; [| done].
  cbn [snd] in Hevs. exists w1, evs. repeat split; try done.
  destruct images as [| f [| f' images]].
  - injection Hloop as <-. rewrite process_none. cbn [snd trace with_conf_json].
    by rewrite app_nil_r.
  - rewrite (process_single _ _ _ _ _ _ w1 Hloop).
    unfold copyfile, read_file, write_file, call, gdal2tiles, save_conf.
    monad_unfold. cbn [fs log with_fs].
    destruct (fs_read (artifact dir_path f) (fs w1)) as [c |];
      cbn [fst snd fs trace log with_fs]; [| done].
    destruct (fs_write (merged_path dir_path) c (fs w1)) as [f1 |];
      cbn [fst snd fs trace log with_fs]; [| done].
    destruct (set_nodata X (merged_path dir_path) 0 f1) as [[e |] f2];
      cbn [fst snd trace with_fs log with_conf_json];
      by rewrite <- ?app_assoc.
  - assert (Hlen : (2 <= List.length (f :: f' :: images))%nat) by (simpl; lia).
    rewrite (process_many _ _ _ _ _ w w1 Hlen Hloop).
    unfold call, gdal2tiles, save_conf. monad_unfold.
    destruct (merge X _ _ (fs w1)) as [[e |] f2];
      cbn [fst snd trace with_fs log with_conf_json];
      by rewrite <- ?app_assoc.
Qed.
End PipelineClaims.

Lemma per_file_failure_is_isolated_witness :
  (per_file_loop sample_tle georef_breaks sample_dir ([] ++ file_a :: [file_b])
     (sample_world two_files_fs)).1 = Ok tt.
Proof.
  refine (proj1 (proj2 (per_file_failure_is_isolated sample_tle georef_breaks
            sample_dir [] file_a [file_b] (sample_world two_files_fs)
            (StageError "georef_tif") _))).
  vm_compute. reflexivity.
Defined.

(** C3 fails as stated: when geo-referencing raises for [file_a], after
    preprocessing has written its artifact, the failure is caught and the
    loop goes on, but the failed file has an artifact on disk. *)
Lemma failed_file_keeps_artifact :
  let w := sample_world two_files_fs in
  let r := per_file_loop sample_tle georef_breaks sample_dir [file_a; file_b] w in
  (stage sample_tle georef_breaks sample_dir file_a w).1
    = Raise (StageError "georef_tif") /\
  fs_read (artifact sample_dir file_a) (fs w) = None /\
  r.1 = Ok tt /\
  fs_read (artifact sample_dir file_a) (fs r.2) = Some "iq-a"%string /\
  fs_read (artifact sample_dir file_b) (fs r.2) = Some "iq-b"%string.
Proof. vm_compute. repeat split; reflexivity. Qed.

(** C1 fails as stated: of two files, one is processed successfully and
    the preprocessing of the other raises, so exactly one artifact exists;
    the single artifact is not copied to the merged output: [merge] is
    called on both artifact paths. *)
Lemma single_success_is_merged_not_copied :
  let w := sample_world two_files_fs in
  let r := process sample_tle preprocess_breaks sample_dir sample_tms
             [file_a; file_b] w in
  trace r.2 =
    [EvPreprocess (sample_dir +:+ "/" +:+ file_a) (artifact sample_dir file_a);
     EvSaveMetadata (sample_dir +:+ "/" +:+ file_a) (artifact sample_dir file_a)
       "NOAA 19" sample_tle;
     EvGeoref (artifact sample_dir file_a) (artifact sample_dir file_a);
     EvPreprocess (sample_dir +:+ "/" +:+ file_b) (artifact sample_dir file_b);
     EvPrint (StageError "preprocess");
     EvMerge [artifact sample_dir file_a; artifact sample_dir file_b]
       (merged_path sample_dir)] /\
  fs_read (artifact sample_dir file_a) (fs r.2) = Some "iq-a"%string /\
  fs_read (artifact sample_dir file_b) (fs r.2) = None /\
  fs_read (merged_path sample_dir) (fs r.2) = None.
Proof. vm_compute. repeat split; reflexivity. Qed.

(** ** The tick *)

Lemma ckey_eqb_eq a b : ckey_eqb a b = true <-> a = b.
Proof.
  destruct a as [x | x], b as [y | y]; cbn [ckey_eqb]; try (split; [done | congruence]).
  - rewrite String.eqb_eq. split; congruence.
  - rewrite Z.eqb_eq. split; congruence.
Qed.

Lemma dict_get_set_ne d k k' v :
  ckey_eqb k k' = false -> dict_get (dict_set d k v) k' = dict_get d k'.
Proof.
  intros Hne. induction d as [| [k0 v0] d IH]; cbn [dict_set dict_get].
  - by rewrite Hne.
  - destruct (ckey_eqb k0 k) eqn:E0; cbn [dict_get].
    + apply ckey_eqb_eq in E0 as ->. by rewrite Hne.
    + by rewrite IH.
Qed.

Lemma dict_set_absent d k v :
  dict_get d k = None -> dict_set d k v = d ++ [(k, v)].
Proof.
  induction d as [| [k0 v0] d IH]; cbn [dict_set dict_get app]; [done |].
  destruct (ckey_eqb k0 k); [done |]. intros H. by rewrite IH.
Qed.

Lemma dict_set_present d k v x :
  is_Some (dict_get d k) -> dict_set (d ++ [x]) k v = dict_set d k v ++ [x].
Proof.
  induction d as [| [k0 v0] d IH]; cbn [dict_set dict_get app].
  - by intros [? ?].
  - destruct (ckey_eqb k0 k); [done |]. intros H. by rewrite IH.
Qed.

Lemma dict_get_app d l k :
  dict_get (d ++ l) k =
  match dict_get d k with Some v => Some v | None => dict_get l k end.
Proof.
  induction d as [| [k0 v0] d IH]; cbn [dict_get app]; [done |].
  by destruct (ckey_eqb k0 k).
Qed.

Lemma dict_get_set_eq d k v :
  is_Some (dict_get d k) -> dict_get (dict_set d k v) k = Some v.
Proof.
  induction d as [| [k0 v0] d IH]; cbn [dict_set dict_get].
  - by intros [? ?].
  - destruct (ckey_eqb k0 k) eqn:E; cbn [dict_get]; rewrite E; [done | apply IH].
Qed.

(** A configuration as [json.load] returns it has string keys only. *)
Lemma loaded_conf_fresh d :
  (forall k v, (k, v) ∈ d -> exists s, k = KStr s) -> conf_fresh d.
Proof.
  intros Hstr c _ k _. induction d as [| [k0 v0] d IH]; [done |].
  cbn [dict_get]. destruct (Hstr k0 v0) as [s ->]; [left |].
  cbn [ckey_eqb]. apply IH. intros k' v' Hin. apply (Hstr k' v'). by right.
Qed.

Section TickClaims.
Context (root_path : string) (RATE : Z) (TLE_NOAA : string) (X : Collaborators).

Abbreviation update := (update root_path RATE TLE_NOAA X).
Abbreviation process := (process TLE_NOAA X).
Abbreviation window_dir := (window_dir root_path RATE).
Abbreviation tms_dir := (tms_dir root_path RATE).
Abbreviation advance := (advance RATE).
Abbreviation move_unprocessed_files := (move_unprocessed_files root_path RATE).

Lemma conf_index_preserves {B} (f : World -> B) k : preserves f (conf_index k).
Proof.
  intros w. unfold conf_index, bind, gets. by destruct (dict_get (conf w) (KStr k)).
Qed.

Lemma record_window_preserves_cursor interval :
  preserves start_date (record_window interval).
Proof.
  unfold record_window.
  apply preserves_bind; [apply conf_index_preserves | intros v].
  apply preserves_bind; [by apply preserves_modify | intros _].
  apply preserves_bind; [apply conf_index_preserves | intros [n | s]].
  - by apply preserves_modify.
  - by intros w.
Qed.

Lemma reconcile_and_record_preserve_cursor dir_path images interval :
  preserves start_date
    (move_unprocessed_files dir_path images ;; record_window interval).
Proof.
  apply preserves_bind.
  - apply (preserves_weaken globals); [| apply move_preserves_globals].
    unfold globals. congruence.
  - intros _. apply record_window_preserves_cursor.
Qed.

Lemma record_window_run interval w c :
  dict_get (conf w) (KStr "counter") = Some (VInt c) ->
  record_window interval w =
  (Ok tt,
   with_conf (dict_set (dict_set (conf w) (KInt c) (VStr interval))
                (KStr "counter") (VInt (c + 1))) w).
Proof.
  intros Hc. unfold record_window. monad_unfold. rewrite Hc.
  cbn [key_of_val conf with_conf].
  rewrite dict_get_set_ne, Hc by done.
  unfold with_conf. cbn [fs start_date conf conf_json trace]. done.
Qed.

(** C2, as amended.  On every tick whose window is absent or empty, and on
    every tick whose pipeline run returns (whatever happened to the
    individual files and whatever the tiling command did), the cursor ends
    exactly one width after where it started, also when reconciliation or
    the recording of the window raises afterwards.  Ticks in which
    [process] itself raises are left out. *)
Theorem update_advances_cursor w :
  match fs w !! window_dir (start_date w) with
  | Some e =>
      listing e = [] \/
      (process (window_dir (start_date w)) (tms_dir (start_date w)) (listing e) w).1
        = Ok tt
  | None => True
  end ->
  start_date (update w).2 = start_date w + RATE.
Proof.
  intros H.
  destruct (fs w !! window_dir (start_date w)) as [e |] eqn:Hd.
  - destruct (decide (listing e = [])) as [Hnil | Hne].
    + rewrite update_skips; [done |]. by rewrite Hd.
    + destruct H as [? | Hok]; [done |].
      rewrite (update_processes _ _ _ _ w e Hd Hne). unfold bind at 1.
      pose proof (process_preserves_cursor_conf TLE_NOAA X
                    (window_dir (start_date w)) (tms_dir (start_date w))
                    (listing e) w) as Hc.
      destruct (process _ _ _ w) as [[[] | ex] w1]; [| done].
      unfold same, cursor_conf in Hc. cbn [snd] in Hc.
      unfold bind at 1, advance, modify.
      rewrite reconcile_and_record_preserve_cursor.
      cbn [start_date with_start_date]. congruence.
  - rewrite update_skips; [done |]. by rewrite Hd.
Qed.

(** What a returning tick on a non-empty window leaves in the configuration
    and in the configuration file. *)
Lemma record_after_process w images c :
  listing <$> fs w !! window_dir (start_date w) = Some images ->
  images <> [] ->
  dict_get (conf w) (KStr "counter") = Some (VInt c) ->
  dict_get (conf w) (KInt c) = None ->
  (update w).1 = Ok tt ->
  conf (update w).2 =
    dict_set (conf w) (KStr "counter") (VInt (c + 1)) ++
    [(KInt c, VStr (get_interval (start_date w) RATE))] /\
  conf_json (update w).2 = json_dump (conf w).
Proof.
  intros Hd Hne Hc Hfresh.
  destruct (fs w !! window_dir (start_date w)) as [e |] eqn:He; [| done].
  injection Hd as <-.
  rewrite (update_processes _ _ _ _ w e He Hne).
  pose proof (process_preserves_cursor_conf TLE_NOAA X
                (window_dir (start_date w)) (tms_dir (start_date w))
                (listing e) w) as Hp.
  pose proof (process_persists TLE_NOAA X
                (window_dir (start_date w)) (tms_dir (start_date w))
                (listing e) w) as Hj.
  destruct (process _ _ _ w) as [[[] | ex] w1] eqn:Hproc;
    [| by rewrite (bind_raise _ _ _ _ _ Hproc)].
  rewrite (bind_ok _ _ _ _ _ Hproc).
  specialize (Hj w1 eq_refl). unfold same, cursor_conf in Hp. cbn [snd] in Hp.
  injection Hp as Hsd Hconf.
  set (w2 := with_start_date (start_date w1 + RATE) w1).
  rewrite (bind_ok advance _ w1 tt w2) by done.
  pose proof (move_preserves_globals root_path RATE
                (window_dir (start_date w)) (listing e) w2) as Hg.
  destruct (move_unprocessed_files _ _ w2) as [[[] | ex] w3] eqn:Hmove;
    [| by rewrite (bind_raise _ _ _ _ _ Hmove)].
  rewrite (bind_ok _ _ _ _ _ Hmove).
  unfold same, globals in Hg. cbn [snd] in Hg. injection Hg as Hsd3 Hconf3 Hjson3.
  assert (Hc3 : dict_get (conf w3) (KStr "counter") = Some (VInt c)).
  { rewrite Hconf3. unfold w2. cbn [conf with_start_date]. by rewrite Hconf. }
  rewrite (record_window_run _ w3 c Hc3). intros _.
  cbn [snd conf conf_json with_conf]. rewrite Hconf3, Hjson3.
  unfold w2. cbn [conf conf_json with_start_date]. rewrite Hconf, Hj.
  split; [| done].
  rewrite (dict_set_absent _ _ _ Hfresh).
  apply dict_set_present. by rewrite Hc.
Qed.

(** C6, as amended.  After a tick that processes a non-empty window and
    returns, the counter has increased by exactly 1 and exactly one entry
    has been appended to the configuration, from the previous value of the
    counter to the label of the window.  The configuration file was
    written during that tick by [save_conf] at the end of [process], before
    the entry and the increment: it holds the configuration as it was
    before the tick. *)
Theorem update_records_window w images c :
  listing <$> fs w !! window_dir (start_date w) = Some images ->
  images <> [] ->
  dict_get (conf w) (KStr "counter") = Some (VInt c) ->
  dict_get (conf w) (KInt c) = None ->
  (update w).1 = Ok tt ->
  conf (update w).2 =
    dict_set (conf w) (KStr "counter") (VInt (c + 1)) ++
    [(KInt c, VStr (get_interval (start_date w) RATE))] /\
  conf_json (update w).2 = json_dump (conf w).
Proof. apply record_after_process. Qed.
(** The freshness of the integer keys is kept by such a tick. *)
Lemma update_keeps_conf_fresh w images c :
  listing <$> fs w !! window_dir (start_date w) = Some images ->
  images <> [] ->
  dict_get (conf w) (KStr "counter") = Some (VInt c) ->
  conf_fresh (conf w) ->
  (update w).1 = Ok tt ->
  conf_fresh (conf (update w).2).
Proof.
  intros Hd Hne Hc Hfresh Hok.
  destruct (record_after_process w images c Hd Hne Hc) as [Hconf _];
    [by apply (Hfresh c) | done |].
  rewrite Hconf. intros c' Hc' k Hk.
  rewrite dict_get_app, dict_get_set_eq in Hc' by (by rewrite Hc).
  injection Hc' as <-.
  rewrite dict_get_app, dict_get_set_ne by done.
  rewrite (Hfresh c Hc k) by lia. cbn [dict_get ckey_eqb].
  by assert ((c =? k) = false) as -> by lia.
Qed.
End TickClaims.

Lemma update_advances_cursor_witness :
  start_date (update sample_root sample_rate sample_tle all_fine
                (sample_world two_files_fs)).2 =
  start_date (sample_world two_files_fs) + sample_rate.
Proof.
  apply update_advances_cursor. vm_compute. right. reflexivity.
Defined.

(** C2 fails as stated: when [merge] raises, the exception leaves
    [process] and [update]; the cursor is where it was and reconciliation
    has not run. *)
Lemma merge_failure_stalls_cursor :
  let w := sample_world two_files_fs in
  let r := update sample_root sample_rate sample_tle merge_breaks w in
  r.1 = Raise (StageError "merge") /\
  start_date r.2 = start_date w /\
  start_date r.2 <> start_date w + sample_rate.
Proof. vm_compute. repeat split; try reflexivity. discriminate. Qed.

Lemma update_records_window_witness :
  conf_json (update sample_root sample_rate sample_tle all_fine
               (sample_world two_files_fs)).2 =
  json_dump (conf (sample_world two_files_fs)).
Proof.
  refine (proj2 (update_records_window sample_root sample_rate sample_tle all_fine
                   (sample_world two_files_fs) [file_a; file_b] 0 _ _ _ _ _)).
  - vm_compute. reflexivity.
  - discriminate.
  - reflexivity.
  - reflexivity.
  - vm_compute. reflexivity.
Defined.

(** C6 fails as stated: after a successful tick the in-memory configuration
    has the new entry and the counter 1, but the configuration file, written
    before them, still has the counter 0 and no entry for the window. *)
Lemma persisted_configuration_lags :
  let w := sample_world two_files_fs in
  let r := update sample_root sample_rate sample_tle all_fine w in
  r.1 = Ok tt /\
  dict_get (conf r.2) (KStr "counter") = Some (VInt 1) /\
  dict_get (conf r.2) (KInt 0) = Some (VStr "2019-06-01_12:00:00_2019-06-01_12:10:00") /\
  json_get (conf_json r.2) "counter" = Some (VInt 0) /\
  json_get (conf_json r.2) "0" = None.
Proof. vm_compute. repeat split; reflexivity. Qed.

(** ** Reconciliation *)

Section ReconcileClaims.
Context (root_path : string) (RATE : Z).

Abbreviation move_unprocessed_files := (move_unprocessed_files root_path RATE).
Abbreviation next_dir w := (window_dir root_path RATE (start_date w)).

(** X8.  When the next window's directory does not exist yet, reconciliation
    returns, every straggler is then in the next directory with its
    content and no longer in the old one, and every other file of the old
    directory stays where it was. *)
Theorem stragglers_are_relocated dir_path images w e f :
  names_ok (fs w) ->
  fs w !! dir_path = Some e ->
  fs w !! next_dir w = None ->
  let r := move_unprocessed_files dir_path images w in
  r.1 = Ok tt /\
  (f ∈ not_processed images (listing e) ->
   file_at (fs r.2) (next_dir w) f = e !! f /\ file_at (fs r.2) dir_path f = None) /\
  (f ∉ not_processed images (listing e) ->
   file_at (fs r.2) (next_dir w) f = None /\ file_at (fs r.2) dir_path f = e !! f).
Proof.
  intros Hok Hd Hn. cbv zeta.
  assert (Hne : dir_path <> next_dir w) by (intros ->; congruence).
  destruct (decide (not_processed images (listing e) = [])) as [Hnil | Hsome].
  - rewrite (move_no_stragglers _ _ _ _ _ e Hd Hnil). cbn [fst snd].
    split; [done |]. rewrite Hnil. split; [by intros ?%elem_of_nil |].
    intros _. unfold file_at. by rewrite Hn, Hd.
  - rewrite (move_relocates _ _ _ _ _ e Hok Hd Hn Hsome). cbn [fst snd fs with_fs].
    split; [done |].
    rewrite !file_at_insert.
    rewrite (decide_True (P := next_dir w = next_dir w)) by done.
    rewrite (decide_False (P := next_dir w = dir_path)) by done.
    rewrite (decide_True (P := dir_path = dir_path)) by done.
    destruct (relocate_lookup (not_processed images (listing e)) e ∅ f) as [H1 H2].
    { apply not_processed_NoDup, listing_NoDup. }
    { intros x [Hx _]%not_processed_spec. by apply listing_elem. }
    rewrite H1, H2. split; intros Hf.
    + by rewrite !decide_True.
    + by rewrite !decide_False.
Qed.

(** Without stragglers nothing is created and nothing is moved. *)
Theorem no_straggler_no_action dir_path images w e :
  fs w !! dir_path = Some e ->
  not_processed images (listing e) = [] ->
  move_unprocessed_files dir_path images w = (Ok tt, w).
Proof. apply move_no_stragglers. Qed.
End ReconcileClaims.

Lemma stragglers_are_relocated_witness :
  (move_unprocessed_files sample_root sample_rate sample_dir [file_a]
     (with_start_date (sample_start + sample_rate) (sample_world two_files_fs))).1
  = Ok tt.
Proof.
  refine (proj1 (stragglers_are_relocated sample_root sample_rate sample_dir [file_a]
                   (with_start_date (sample_start + sample_rate)
                      (sample_world two_files_fs))
                   (<[file_a := "iq-a"%string]> {[file_b := "iq-b"%string]}) file_b
                   _ _ _)).
  - intros d e n Hd [c Hn].
    unfold sample_world, two_files_fs, with_start_date in Hd. cbn [fs] in Hd.
    apply lookup_singleton_Some in Hd as [<- <-].
    apply lookup_insert_Some in Hn as [[<- _] | [_ Hn]]; [reflexivity |].
    apply lookup_singleton_Some in Hn as [<- _]. reflexivity.
  - unfold sample_world, two_files_fs, with_start_date. cbn [fs].
    apply lookup_singleton_eq.
  - vm_compute. reflexivity.
Defined.

(** C5: with a straggler to carry and the next window's directory already
    there, [os.mkdir] raises and reconciliation stops. *)
Lemma reconciliation_raises_on_existing_directory :
  let w := late_upload_world in
  let r := move_unprocessed_files sample_root sample_rate sample_dir [file_a] w in
  not_processed [file_a] (default [] (listing <$> fs w !! sample_dir)) = [late_file] /\
  listing <$> fs w !! sample_next_dir = Some [next_file] /\
  r.1 = Raise (FileExistsError sample_next_dir).
Proof. vm_compute. repeat split; reflexivity. Qed.

(** C4: in that world the straggler is not moved: it is still in the old
    directory and not in the next one, and the cursor has moved on. *)
Lemma straggler_left_behind :
  let w := late_upload_world in
  let r := move_unprocessed_files sample_root sample_rate sample_dir [file_a] w in
  not_processed [file_a] (default [] (listing <$> fs w !! sample_dir)) = [late_file] /\
  file_at (fs r.2) sample_dir late_file = Some "iq-late"%string /\
  file_at (fs r.2) sample_next_dir late_file = None /\
  window_dir sample_root sample_rate (start_date r.2) = sample_next_dir.
Proof. vm_compute. repeat split; reflexivity. Qed.

(* ================================================================== *)
(** * Part IV: further properties of the code *)

(** ** Window labels and directories *)

Lemma compare_refl (s : string) : String.compare s s = Eq.
Proof.
  induction s as [| c s IH]; [done |]. cbn [String.compare].
  unfold Ascii.compare. by rewrite N.compare_refl.
Qed.

Lemma append_inj_r (a b c : string) : a +:+ b = a +:+ c -> b = c.
Proof.
  induction a as [| x a IH]; [by rewrite !append_nil |].
  rewrite !append_cons. intros H. injection H as H. by apply IH.
Qed.

Lemma get_interval_lt t t' w w' :
  0 <= t -> t < t' -> t' < 253402300800 ->
  str_lt (get_interval t w) (get_interval t' w').
Proof.
  intros Ht Hlt Hmax. unfold get_interval. apply strftime_lt.
  - apply gmtime_four_digit. lia.
  - apply gmtime_four_digit. lia.
  - by apply gmtime_mono.
Qed.

(** X1.  Labels sort in the order of the start instants: for two instants
    of four-digit years the label of the earlier one is lexically smaller,
    whatever the two widths. *)
Theorem labels_sort_by_start t t' w w' :
  0 <= t -> t < t' -> t' < 253402300800 ->
  str_lt (get_interval t w) (get_interval t' w').
Proof. apply get_interval_lt. Qed.

Lemma labels_sort_by_start_witness :
  str_lt (get_interval 1559390400 600) (get_interval 1559390401 3600).
Proof. apply labels_sort_by_start; lia. Defined.

Lemma get_interval_inj t t' w w' :
  0 <= t < 253402300800 -> 0 <= t' < 253402300800 ->
  get_interval t w = get_interval t' w' -> t = t'.
Proof.
  intros Ht Ht' Heq.
  destruct (Z.lt_trichotomy t t') as [Hlt | [-> | Hgt]]; [| done |].
  - pose proof (get_interval_lt t t' w w' ltac:(lia) Hlt ltac:(lia)) as H.
    unfold str_lt in H. rewrite Heq, compare_refl in H. discriminate.
  - pose proof (get_interval_lt t' t w' w ltac:(lia) Hgt ltac:(lia)) as H.
    unfold str_lt in H. rewrite Heq, compare_refl in H. discriminate.
Qed.

(** X2.  Two windows that start at different instants (of four-digit
    years) never share a directory. *)
Theorem window_dir_injective root_path RATE t t' :
  0 <= t < 253402300800 -> 0 <= t' < 253402300800 ->
  window_dir root_path RATE t = window_dir root_path RATE t' -> t = t'.
Proof.
  intros Ht Ht' Heq. unfold window_dir in Heq.
  apply append_inj_r, append_inj_r in Heq.
  by apply (get_interval_inj t t' RATE RATE).
Qed.

Lemma window_dir_injective_witness :
  0 <= sample_start < 253402300800 /\ sample_start = sample_start.
Proof.
  split; [unfold sample_start; lia |].
  apply (window_dir_injective sample_root sample_rate sample_start sample_start);
    [unfold sample_start; lia | unfold sample_start; lia | reflexivity].
Defined.



Lemma strftime_length tm :
  tm_four_digit tm -> String.length (strftime TIME_FORMAT tm) = 19%nat.
Proof.
  intros (Hy & _). rewrite strftime_format, show_Z_four by done.
  unfold pad2. rewrite !append_cons, !append_nil. reflexivity.
Qed.

(** X3.  A label is 39 characters long while both ends of the window are in
    four-digit years. *)
Theorem get_interval_length t w :
  0 <= t < 253402300800 -> 0 <= t + w < 253402300800 ->
  String.length (get_interval t w) = 39%nat.
Proof.
  intros Ht Htw. unfold get_interval.
  rewrite !length_append.
  rewrite (strftime_length (gmtime t)) by (by apply gmtime_four_digit).
  rewrite (strftime_length (gmtime (t + w))) by (by apply gmtime_four_digit).
  reflexivity.
Qed.

Lemma get_interval_length_witness :
  String.length (get_interval 1559390400 600) = 39%nat.
Proof. apply get_interval_length; lia. Defined.

(** ** The filename pattern *)


Lemma re_match_end s :
  re_match [ReEnd] s = true <-> s = EmptyString \/ s = String newline EmptyString.
Proof.
  destruct s as [| c [| c' s]].
  - split; [by left | done].
  - change (re_match [ReEnd] (String c "")) with (Ascii.eqb c newline && true).
    rewrite andb_true_r, Ascii.eqb_eq. split.
    + intros ->. by right.
    + intros [? | H]; [done | by injection H].
  - split; [done | intros [? | ?]; done].
Qed.

Lemma re_match_cons i p s :
  i <> ReEnd ->
  re_match (i :: p) s =
  match s with
  | EmptyString => false
  | String c s' => item_accepts i c && re_match p s'
  end.
Proof. intros Hi. destruct i; try done; by destruct s. Qed.

Lemma re_match_items items :
  Forall (fun i => i <> ReEnd) items ->
  forall s,
    re_match (items ++ [ReEnd]) s = true <->
    exists body tail,
      s = string_of_list_ascii body +:+ tail /\
      Forall2 (fun i c => item_accepts i c = true) items body /\
      (tail = EmptyString \/ tail = String newline EmptyString).
Proof.
  induction 1 as [| i items Hi Hitems IH]; intros s.
  - cbn [app]. rewrite re_match_end. split.
    + intros H. exists [], s. by repeat split.
    + intros (body & tail & -> & Hb & Ht). by apply Forall2_nil_inv_l in Hb as ->.
  - cbn [app]. rewrite re_match_cons by done. split.
    + destruct s as [| c s]; [done |]. intros [Hc Hs]%andb_prop.
      apply IH in Hs as (body & tail & -> & Hb & Ht).
      exists (c :: body), tail. repeat split; [| done]. by constructor.
    + intros (body & tail & -> & Hb & Ht).
      apply Forall2_cons_inv_l in Hb as (c & body' & Hc & Hb & ->).
      cbn [string_of_list_ascii]. rewrite append_cons, Hc. cbn [andb].
      apply IH. by exists body', tail.
Qed.

Lemma pattern_items :
  PATTERN =
  (lits "SDRSharp_" ++ replicate 8 ReDigit ++ lits "_" ++ replicate 6 ReDigit ++
   lits "Z_" ++ replicate 9 ReDigit ++ lits "Hz_IQ" ++ [ReAny] ++ lits "png")
  ++ [ReEnd].
Proof. vm_compute. reflexivity. Qed.

Lemma pattern_items_no_end :
  Forall (fun i => i <> ReEnd)
    (lits "SDRSharp_" ++ replicate 8 ReDigit ++ lits "_" ++ replicate 6 ReDigit ++
     lits "Z_" ++ replicate 9 ReDigit ++ lits "Hz_IQ" ++ [ReAny] ++ lits "png").
Proof. vm_compute. repeat constructor; discriminate. Qed.

Lemma string_of_list_app a b :
  string_of_list_ascii (a ++ b) = string_of_list_ascii a +:+ string_of_list_ascii b.
Proof. induction a as [| c a IH]; [done |]. cbn. by rewrite append_cons, IH. Qed.

Lemma list_of_string_app a b :
  list_ascii_of_string (a +:+ b) = list_ascii_of_string a ++ list_ascii_of_string b.
Proof. induction a as [| c a IH]; [done |]. rewrite append_cons. cbn. by rewrite IH. Qed.

Lemma string_of_list_length l :
  String.length (string_of_list_ascii l) = List.length l.
Proof. induction l as [| c l IH]; [done |]. cbn. by rewrite IH. Qed.

Lemma lits_accept x l :
  Forall2 (fun i c => item_accepts i c = true) (lits x) l <->
  l = list_ascii_of_string x.
Proof.
  revert l. induction x as [| c x IH]; intros l; cbn [lits list_ascii_of_string map].
  - split; [by intros ->%Forall2_nil_inv_l | intros ->; constructor].
  - split.
    + intros (c' & l' & Hc & Hl & ->)%Forall2_cons_inv_l.
      cbn [item_accepts] in Hc. apply Ascii.eqb_eq in Hc as ->.
      f_equal. by apply IH.
    + intros ->. constructor; [apply Ascii.eqb_refl | by apply IH].
Qed.

Lemma digits_accept n l :
  Forall2 (fun i c => item_accepts i c = true) (replicate n ReDigit) l <->
  List.length l = n /\ all_digits (string_of_list_ascii l) = true.
Proof.
  revert l. induction n as [| n IH]; intros l; cbn [replicate].
  - split; [by intros ->%Forall2_nil_inv_l | ].
    intros [Hl _]. destruct l; [constructor | done].
  - split.
    + intros (c' & l' & Hc & Hl & ->)%Forall2_cons_inv_l.
      apply IH in Hl as [Hlen Hd]. cbn [item_accepts] in Hc.
      cbn [List.length string_of_list_ascii all_digits]. rewrite Hc, Hd, Hlen. done.
    + intros [Hlen Hd]. destruct l as [| c l]; [done |].
      cbn [List.length string_of_list_ascii all_digits] in *.
      apply andb_prop in Hd as [Hc Hd]. constructor; [done |].
      apply IH. split; [lia | done].
Qed.

Lemma append_nil_r (s : string) : s +:+ EmptyString = s.
Proof. induction s as [| c s IH]; [done |]. by rewrite append_cons, IH. Qed.

Lemma prefix_append a b : String.prefix a (a +:+ b) = true.
Proof.
  induction a as [| c a IH]; [by destruct b |].
  rewrite append_cons. cbn [String.prefix]. destruct (ascii_dec c c); [apply IH | done].
Qed.

(** X4.  A name accepted by the pattern is a body of 44 characters that
    starts with [SDRSharp_], followed by nothing or by one newline: the
    match is anchored at both ends. *)
Theorem pattern_match_shape s :
  re_match PATTERN s = true ->
  exists body,
    String.length body = 44%nat /\
    String.prefix "SDRSharp_" body = true /\
    (s = body \/ s = body +:+ String newline EmptyString).
Proof.
  rewrite pattern_items, (re_match_items _ pattern_items_no_end).
  intros (body & tail & -> & Hb & Ht).
  exists (string_of_list_ascii body). split; [| split].
  - rewrite string_of_list_length. apply Forall2_length in Hb. rewrite <- Hb.
    vm_compute. reflexivity.
  - apply Forall2_app_inv_l in Hb as (l1 & l2 & H1 & _ & ->).
    apply lits_accept in H1 as ->.
    rewrite string_of_list_app, string_of_list_ascii_of_string.
    apply prefix_append.
  - destruct Ht as [-> | ->]; [left | by right]. apply append_nil_r.
Qed.

Lemma pattern_match_shape_witness :
  exists body,
    String.length body = 44%nat /\
    String.prefix "SDRSharp_" body = true /\
    (capture_name = body \/ capture_name = body +:+ String newline EmptyString).
Proof. apply pattern_match_shape. vm_compute. reflexivity. Defined.

(** X5.  Every well-formed capture name (eight digits of date, six of time,
    nine of frequency) is accepted. *)
Theorem capture_filename_matches date time freq :
  String.length date = 8%nat -> all_digits date = true ->
  String.length time = 6%nat -> all_digits time = true ->
  String.length freq = 9%nat -> all_digits freq = true ->
  re_match PATTERN (capture_filename date time freq) = true.
Proof.
  intros Hd1 Hd2 Ht1 Ht2 Hf1 Hf2.
  rewrite pattern_items, (re_match_items _ pattern_items_no_end).
  exists (list_ascii_of_string (capture_filename date time freq)), EmptyString.
  split; [| split; [| by left]].
  - by rewrite string_of_list_ascii_of_string, append_nil_r.
  - unfold capture_filename. rewrite !list_of_string_app.
    assert (Hdig : forall n x, String.length x = n -> all_digits x = true ->
              Forall2 (fun i c => item_accepts i c = true)
                (replicate n ReDigit) (list_ascii_of_string x)).
    { intros n x Hlen Hx. apply digits_accept.
      rewrite string_of_list_ascii_of_string. split; [| done].
      rewrite <- Hlen. clear. induction x as [| c x IH]; [done |]. cbn. by rewrite IH. }
    change "Hz_IQ.png"%string with ("Hz_IQ" +:+ "." +:+ "png").
    rewrite !list_of_string_app.
    repeat apply Forall2_app; try (by apply lits_accept); try (by apply Hdig).
    repeat constructor.
Qed.

Lemma capture_filename_matches_witness :
  re_match PATTERN (capture_filename "20190601" "120100" "137100000") = true.
Proof. apply capture_filename_matches; reflexivity. Defined.

Lemma digit_is_not_slash c : is_digit c = true -> Ascii.eqb c "/" = false.
Proof.
  destruct c as [[] [] [] [] [] [] [] []]; vm_compute; congruence.
Qed.

Lemma accepted_without_slash items l :
  Forall (fun i => forall c, item_accepts i c = true -> Ascii.eqb c "/" = false) items ->
  Forall2 (fun i c => item_accepts i c = true) items l ->
  no_slash (string_of_list_ascii l) = true.
Proof.
  intros Hitems Hl. induction Hl as [| i c items l Hc Hl IH]; [done |].
  apply Forall_cons in Hitems as [Hi Hitems].
  cbn [string_of_list_ascii no_slash]. by rewrite (Hi c Hc), IH.
Qed.

Lemma pattern_split :
  lits "SDRSharp_" ++ replicate 8 ReDigit ++ lits "_" ++ replicate 6 ReDigit ++
  lits "Z_" ++ replicate 9 ReDigit ++ lits "Hz_IQ" ++ [ReAny] ++ lits "png" =
  (lits "SDRSharp_" ++ replicate 8 ReDigit ++ lits "_" ++ replicate 6 ReDigit ++
   lits "Z_" ++ replicate 9 ReDigit ++ lits "Hz_IQ") ++ ReAny :: lits "png".
Proof. vm_compute. reflexivity. Qed.

Lemma pattern_head_without_slash :
  Forall (fun i => forall c, item_accepts i c = true -> Ascii.eqb c "/" = false)
    (lits "SDRSharp_" ++ replicate 8 ReDigit ++ lits "_" ++ replicate 6 ReDigit ++
     lits "Z_" ++ replicate 9 ReDigit ++ lits "Hz_IQ").
Proof.
  repeat apply Forall_app_2;
    repeat (apply Forall_cons_2 || apply Forall_nil_2);
    intros c Hc; first [by apply digit_is_not_slash
                       | cbn [item_accepts] in Hc; apply Ascii.eqb_eq in Hc as ->; reflexivity].
Qed.

Lemma str_take_zero s : str_take 0 s = EmptyString.
Proof. unfold str_take. change (Z.to_nat 0) with 0%nat. by destruct s. Qed.

Lemma str_drop_one c s : str_drop 1 (String c s) = s.
Proof.
  unfold str_drop. change (Z.to_nat 1) with 1%nat. cbn [String.length String.substring].
  apply substring_all. lia.
Qed.

(** X6.  In a name accepted by the pattern only the character at index 40,
    the one matched by the dot, can be a path separator. *)
Theorem pattern_match_separator s :
  re_match PATTERN s = true ->
  no_slash (str_take 40 s) = true /\ no_slash (str_drop 41 s) = true.
Proof.
  rewrite pattern_items, (re_match_items _ pattern_items_no_end), pattern_split.
  intros (body & tail & -> & Hb & Ht).
  apply Forall2_app_inv_l in Hb as (b40 & rest & H40 & Hrest & ->).
  apply Forall2_cons_inv_l in Hrest as (c & b3 & _ & H3 & ->).
  apply lits_accept in H3 as ->.
  pose proof (accepted_without_slash _ _ pattern_head_without_slash H40) as Hns.
  assert (Hlen : Z.of_nat (String.length (string_of_list_ascii b40)) = 40).
  { rewrite string_of_list_length. apply Forall2_length in H40. rewrite <- H40.
    vm_compute. reflexivity. }
  rewrite string_of_list_app, append_assoc'.
  cbn [string_of_list_ascii list_ascii_of_string]. rewrite append_cons. split.
  - replace 40 with (Z.of_nat (String.length (string_of_list_ascii b40)) + 0) by lia.
    rewrite str_take_join by lia. by rewrite str_take_zero, append_nil_r.
  - replace 41 with (Z.of_nat (String.length (string_of_list_ascii b40)) + 1) by lia.
    rewrite str_drop_join by lia. rewrite str_drop_one.
    destruct Ht as [-> | ->]; vm_compute; reflexivity.
Qed.

Lemma pattern_match_separator_witness :
  no_slash (str_take 40 capture_name) = true /\
  no_slash (str_drop 41 capture_name) = true.
Proof. apply pattern_match_separator. vm_compute. reflexivity. Defined.

(** ** Artifact paths *)

Lemma take_drop_nat s : forall n,
  String.substring 0 n s +:+ String.substring n (String.length s) s = s.
Proof.
  induction s as [| c s IH]; intros [| n]; try done.
  - cbn [String.substring String.length]. rewrite append_nil. f_equal.
    apply substring_all. lia.
  - cbn [String.substring String.length]. rewrite append_cons. f_equal.
    rewrite (substring_enough s n (S (String.length s)) (String.length s)) by lia.
    apply IH.
Qed.

Lemma str_take_drop k s : str_take k s +:+ str_drop k s = s.
Proof. apply take_drop_nat. Qed.

Lemma str_drop_succ n x s :
  0 <= n -> str_drop (n + 1) (String x s) = str_drop n s.
Proof.
  intros Hn. unfold str_drop.
  replace (Z.to_nat (n + 1)) with (S (Z.to_nat n)) by lia.
  cbn [String.substring String.length]. apply substring_enough; lia.
Qed.

Lemma str_drop_rfind c s :
  0 <= rfind c s -> exists rest, str_drop (rfind c s) s = String c rest.
Proof.
  induction s as [| x s IH]; cbn [rfind]; [lia |].
  destruct (0 <=? rfind c s) eqn:E.
  - intros _. apply Z.leb_le in E. destruct (IH E) as [rest Hrest].
    exists rest. by rewrite str_drop_succ.
  - destruct (Ascii.eqb x c) eqn:Ex; [| lia]. intros _.
    apply Ascii.eqb_eq in Ex as ->. exists s. apply str_drop_zero.
Qed.

(** [root + ext == p], and [ext] is empty or starts with a dot. *)
Lemma splitext_parts p :
  (splitext p).1 +:+ (splitext p).2 = p /\
  ((splitext p).2 = EmptyString \/ exists rest, (splitext p).2 = String "." rest).
Proof.
  unfold splitext.
  destruct (rfind "/" p <? rfind "." p) eqn:E; cbn [fst snd];
    [| split; [apply append_nil_r | by left]].
  destruct (all_dots _); cbn [fst snd]; [split; [apply append_nil_r | by left] |].
  split; [apply str_take_drop |]. right. apply str_drop_rfind.
  apply Z.ltb_lt in E. pose proof (rfind_bounds "/" p). lia.
Qed.

(** X7.  The artifact path of a file is never the path of the file itself:
    preprocessing cannot overwrite its own input. *)
Theorem artifact_differs_from_input dir_path f :
  artifact dir_path f <> dir_path +:+ "/" +:+ f.
Proof.
  unfold artifact. set (p := dir_path +:+ "/" +:+ f).
  destruct (splitext_parts p) as [Hp Hext]. intros Heq.
  rewrite <- Hp in Heq at 2. apply append_inj_r in Heq.
  destruct Hext as [He | [rest He]]; rewrite He in Heq; discriminate.
Qed.

(** ** Ingestion *)

Section IngestExtras.
Context (root_path : string) (RATE : Z).

Abbreviation upload_page := (upload_page root_path RATE).
Abbreviation window_dir := (window_dir root_path RATE).
Abbreviation current_entries := (current_entries root_path RATE).

(** The cursor, the configuration, its file and the trace. *)
Lemma mkdir_preserves {B} (f : World -> B) p :
  (forall w g, f (with_fs g w) = f w) -> preserves f (mkdir p).
Proof. intros Hf w. unfold mkdir. destruct (fs w !! p); [done | apply Hf]. Qed.

Lemma write_file_preserves {B} (f : World -> B) p c :
  (forall w g, f (with_fs g w) = f w) -> preserves f (write_file p c).
Proof. intros Hf w. unfold write_file. destruct (fs_write p c (fs w)); [apply Hf | done]. Qed.

Lemma upload_page_preserves {B} (f : World -> B) req :
  (forall w g, f (with_fs g w) = f w) -> preserves f (upload_page req).
Proof.
  intros Hf. unfold upload_page. destruct (method req); [apply preserves_ret |].
  apply preserves_bind; [by intros w | intros sd].
  apply preserves_bind; [by intros w | intros present].
  apply preserves_bind.
  { apply preserves_if; [by apply mkdir_preserves | apply preserves_ret]. }
  intros _. apply preserves_for_each. intros key.
  apply preserves_bind; [apply multi_index_preserves | intros file].
  apply preserves_if; [| apply preserves_ret].
  apply preserves_bind; [apply multi_index_preserves | intros sat].
  by apply write_file_preserves.
Qed.

(** X9.  Handling a request, whatever it carries and whether it returns or
    raises, never moves the cursor, never changes the configuration or its
    file, and calls none of the collaborators. *)
Theorem upload_page_only_touches_files req w :
  let w' := (upload_page req w).2 in
  start_date w' = start_date w /\ conf w' = conf w /\
  conf_json w' = conf_json w /\ trace w' = trace w.
Proof.
  cbv zeta.
  pose proof (upload_page_preserves (fun w => (globals w, trace w)) req
                ltac:(done) w) as H.
  unfold same, globals in H. by injection H.
Qed.

Lemma bind_ext {A B} (m : M A) (k1 k2 : A -> M B) w :
  (forall x w', k1 x w' = k2 x w') -> bind m k1 w = bind m k2 w.
Proof. intros H. unfold bind. destruct (m w) as [[x | e] w']; [apply H | done]. Qed.

Lemma for_each_ext {A} (l : list A) (b1 b2 : A -> M unit) w :
  (forall x w, x ∈ l -> b1 x w = b2 x w) -> for_each l b1 w = for_each l b2 w.
Proof.
  revert w. induction l as [| x l IH]; intros w H; [done |].
  cbn [for_each]. unfold bind. rewrite (H x w) by left.
  destruct (b2 x w) as [[[] | e] w1]; [| done].
  apply IH. intros y w' Hy. apply H. by right.
Qed.

Lemma multi_get_filter {A} (l : list (string * A)) k0 k :
  k0 <> k ->
  multi_get (filter (fun p => negb (String.eqb k0 p.1)) l) k = multi_get l k.
Proof.
  intros Hne. induction l as [| [k1 v] l IH]; [done |].
  rewrite filter_cons. cbn [fst multi_get].
  destruct (String.eqb_spec k0 k1) as [<- | Hk1]; cbn [negb].
  - rewrite decide_False by (by intros ?). rewrite IH.
    by destruct (String.eqb_spec k0 k).
  - rewrite decide_True by done. cbn [multi_get]. by rewrite IH.
Qed.

Lemma multi_get_first {A} (l : list (string * A)) k :
  multi_get (first_parts l) k = multi_get l k.
Proof.
  induction l as [| [k0 v] l IH]; [done |]. cbn [first_parts multi_get].
  destruct (String.eqb_spec k0 k) as [-> | Hne]; [done |].
  by rewrite multi_get_filter.
Qed.

Lemma filter_key_twice (k : string) (l : list string) :
  filter (fun k' => negb (String.eqb k k')) (filter (fun k' => negb (String.eqb k k')) l)
  = filter (fun k' => negb (String.eqb k k')) l.
Proof.
  induction l as [| x l IH]; [done |]. rewrite !filter_cons.
  destruct (decide (negb (String.eqb k x))) as [Hx | Hx]; [| done].
  rewrite filter_cons, decide_True by done. by rewrite IH.
Qed.

Lemma filter_key_comm (k k0 : string) (l : list string) :
  filter (fun k' => negb (String.eqb k k')) (filter (fun k' => negb (String.eqb k0 k')) l)
  = filter (fun k' => negb (String.eqb k0 k')) (filter (fun k' => negb (String.eqb k k')) l).
Proof.
  induction l as [| x l IH]; [done |]. rewrite !filter_cons.
  destruct (decide (negb (String.eqb k0 x))), (decide (negb (String.eqb k x)));
    rewrite ?filter_cons, ?decide_True, ?decide_False by done; by rewrite ?IH.
Qed.

Lemma multi_keys_filter {A} (l : list (string * A)) k0 :
  multi_keys (filter (fun p => negb (String.eqb k0 p.1)) l) =
  filter (fun k' => negb (String.eqb k0 k')) (multi_keys l).
Proof.
  induction l as [| [k v] l IH]; [done |].
  rewrite filter_cons. cbn [fst multi_keys]. rewrite filter_cons.
  destruct (decide (negb (String.eqb k0 k))) as [Hk | Hk].
  - cbn [multi_keys]. rewrite IH. f_equal. apply filter_key_comm.
  - rewrite IH. assert (k0 = k) as ->.
    { destruct (String.eqb_spec k0 k); [done | by destruct Hk]. }
    by rewrite filter_key_twice.
Qed.

Lemma multi_keys_first {A} (l : list (string * A)) :
  multi_keys (first_parts l) = multi_keys l.
Proof.
  induction l as [| [k v] l IH]; [done |]. cbn [first_parts multi_keys].
  by rewrite multi_keys_filter, filter_key_twice, IH.
Qed.

(** X10.  Of the parts that share a field name only the first is looked
    at: the request behaves as if the others had not been sent. *)
Theorem upload_page_first_part_per_field fields parts w :
  upload_page (mk_request POST fields parts) w =
  upload_page (mk_request POST fields (first_parts parts)) w.
Proof.
  unfold upload_page. cbn [method files form].
  apply bind_ext. intros sd w0. apply bind_ext. intros present w1.
  apply bind_ext. intros _ w2.
  rewrite multi_keys_first. apply for_each_ext. intros key w' _.
  unfold bind, multi_index. by rewrite multi_get_first.
Qed.
Lemma multi_get_in_keys {A} (parts : list (string * A)) key v :
  multi_get parts key = Some v -> key ∈ multi_keys parts.
Proof.
  induction parts as [| [k v0] parts IH]; [done |]. cbn [multi_get multi_keys].
  destruct (String.eqb_spec k key) as [-> | Hne]; [by left |].
  intros H. right. apply list_elem_of_filter. split; [| by apply IH].
  by destruct (String.eqb_spec k key).
Qed.

Lemma loop_without_category fields parts dir keys w :
  multi_get fields "sat_type" = None ->
  (forall key, key ∈ keys -> key ∈ multi_keys parts) ->
  let body := fun key : string =>
    let* file := multi_index parts key in
    if re_match PATTERN (filename file) then
      let* sat_type := multi_index fields "sat_type" in
      write_file (dir +:+ "/" +:+ sat_type +:+ "_" +:+ filename file) (stream file)
    else ret tt in
  exists r, for_each keys body w = (r, w) /\
    (r = Ok tt \/ r = Raise (KeyError "sat_type")) /\
    (r = Ok tt <-> forall key f, key ∈ keys -> multi_get parts key = Some f ->
                     re_match PATTERN (filename f) = false).
Proof.
  intros Hform Hkeys body. induction keys as [| key keys IH].
  { exists (Ok tt). split; [done |]. split; [by left |]. split; [| done].
    by intros _ key f ?%elem_of_nil. }
  destruct IH as (r & Hrun & Hr & Hiff).
  { intros k Hk. apply Hkeys. by right. }
  destruct (multi_get_keys parts key) as (f & Hf & _); [apply Hkeys; left |].
  cbn [for_each]. unfold bind at 1.
  assert (Hbody : body key w =
                  (if re_match PATTERN (filename f) then Raise (KeyError "sat_type")
                   else Ok tt, w)).
  { unfold body, bind, multi_index. rewrite Hf. cbn [ret].
    destruct (re_match PATTERN (filename f)); [by rewrite Hform | done]. }
  rewrite Hbody. destruct (re_match PATTERN (filename f)) eqn:Hm.
  - exists (Raise (KeyError "sat_type")). split; [done |]. split; [by right |].
    split; [done |]. intros H. specialize (H key f ltac:(left) Hf). congruence.
  - exists r. split; [done |]. split; [done |]. rewrite Hiff. split.
    + intros H k g [-> | Hk]%elem_of_cons Hg; [congruence | by eapply H].
    + intros H k g Hk. apply H. by right.
Qed.

Lemma upload_prelude fields parts w :
  upload_page (mk_request POST fields parts) w =
  for_each (multi_keys parts) (fun key =>
    let* file := multi_index parts key in
    if re_match PATTERN (filename file) then
      let* sat_type := multi_index fields "sat_type" in
      write_file (window_dir (start_date w) +:+ "/" +:+ sat_type +:+ "_" +:+ filename file)
                 (stream file)
    else ret tt)
    (with_fs (<[window_dir (start_date w) := current_entries w]> (fs w)) w).
Proof.
  unfold upload_page. cbn [method files form].
  unfold bind at 1. unfold gets at 1. unfold bind at 1. unfold isdir, gets.
  rewrite decide_is_Some. fold (window_dir (start_date w)).
  unfold bind at 1. unfold mkdir, current_entries.
  destruct (fs w !! window_dir (start_date w)) as [e |] eqn:Hd; cbn [negb default ret].
  - by rewrite insert_id, with_fs_id.
  - by rewrite Hd.
Qed.

(** X11.  A request without the [sat_type] field stores no file.  It
    returns when none of the parts looked at has a matching name, and
    raises [KeyError "sat_type"] as soon as one has. *)
Theorem upload_without_category fields parts w :
  multi_get fields "sat_type" = None ->
  let r := upload_page (mk_request POST fields parts) w in
  (forall d n, file_at (fs r.2) d n = file_at (fs w) d n) /\
  (r.1 = Ok tt \/ r.1 = Raise (KeyError "sat_type")) /\
  (r.1 = Ok tt <-> forall key f, multi_get parts key = Some f ->
                     re_match PATTERN (filename f) = false).
Proof.
  intros Hform. cbv zeta. rewrite upload_prelude.
  destruct (loop_without_category fields parts (window_dir (start_date w))
              (multi_keys parts)
              (with_fs (<[window_dir (start_date w) := current_entries w]> (fs w)) w)
              Hform ltac:(done)) as (r & Hrun & Hr & Hiff).
  rewrite Hrun. cbn [fst snd fs with_fs]. split.
  { intros d n. rewrite file_at_insert.
    case_decide as Hd; [subst d; apply current_entries_lookup | done]. }
  split; [done |]. rewrite Hiff. split.
  - intros H key f Hf. eapply H; [by eapply multi_get_in_keys | done].
  - intros H key f _. apply H.
Qed.

(** X12.  Sending the same file twice leaves the files as sending it once
    does. *)
Theorem upload_twice w key fields fname content category :
  multi_get fields "sat_type" = Some category ->
  no_slash category = true -> no_slash fname = true ->
  let req := mk_request POST fields [(key, mk_file fname content)] in
  (upload_page req ;; upload_page req) w = upload_page req w.
Proof.
  intros Hform Hc Hf. cbv zeta. unfold bind.
  rewrite (upload_single root_path RATE w key fields fname content category) by done.
  rewrite (upload_single root_path RATE _ key fields fname content category) by done.
  f_equal. unfold current_entries. cbn [fs with_fs start_date].
  rewrite lookup_insert_eq. cbn [default]. unfold id.
  rewrite insert_insert_eq.
  destruct (re_match PATTERN fname); cbv iota; [by rewrite insert_insert_eq | done].
Qed.

(** X13.  Two uploads that are stored under different names can be
    handled in either order: the files, and everything else, end up the
    same. *)
Theorem uploads_commute w key key' fields fields' fname fname' content content'
    category category' :
  multi_get fields "sat_type" = Some category ->
  multi_get fields' "sat_type" = Some category' ->
  no_slash category = true -> no_slash fname = true ->
  no_slash category' = true -> no_slash fname' = true ->
  category +:+ "_" +:+ fname <> category' +:+ "_" +:+ fname' ->
  let req := mk_request POST fields [(key, mk_file fname content)] in
  let req' := mk_request POST fields' [(key', mk_file fname' content')] in
  (upload_page req ;; upload_page req') w = (upload_page req' ;; upload_page req) w.
Proof.
  intros Hform Hform' Hc Hf Hc' Hf' Hne. cbv zeta. unfold bind.
  rewrite (upload_single root_path RATE w key fields fname content category) by done.
  rewrite (upload_single root_path RATE w key' fields' fname' content' category') by done.
  rewrite (upload_single root_path RATE _ key fields fname content category) by done.
  rewrite (upload_single root_path RATE _ key' fields' fname' content' category') by done.
  f_equal. unfold current_entries. cbn [fs with_fs start_date].
  rewrite !lookup_insert_eq. cbn [default]. unfold id. rewrite !insert_insert_eq.
  destruct (re_match PATTERN fname), (re_match PATTERN fname'); cbv iota; try done.
  by rewrite insert_insert_ne.
Qed.

End IngestExtras.

Lemma upload_without_category_witness :
  (upload_page sample_root sample_rate
     (mk_request POST [] [("file", mk_file capture_name "iq")]) empty_world).1 = Ok tt \/
  (upload_page sample_root sample_rate
     (mk_request POST [] [("file", mk_file capture_name "iq")]) empty_world).1 =
  Raise (KeyError "sat_type").
Proof.
  refine (proj1 (proj2 (upload_without_category sample_root sample_rate []
                          [("file", mk_file capture_name "iq")] empty_world _))).
  reflexivity.
Defined.

Lemma upload_twice_witness :
  (upload_page sample_root sample_rate (accept_request "NOAA 19" capture_name "iq") ;;
   upload_page sample_root sample_rate (accept_request "NOAA 19" capture_name "iq"))
    empty_world =
  upload_page sample_root sample_rate (accept_request "NOAA 19" capture_name "iq")
    empty_world.
Proof.
  refine (upload_twice sample_root sample_rate empty_world "file" [("sat_type", "NOAA 19")]
            capture_name "iq" "NOAA 19" _ _ _); reflexivity.
Defined.

Lemma uploads_commute_witness :
  (upload_page sample_root sample_rate (accept_request "NOAA 19" capture_name "iq") ;;
   upload_page sample_root sample_rate (accept_request "NOAA 18" capture_name "iq"))
    empty_world =
  (upload_page sample_root sample_rate (accept_request "NOAA 18" capture_name "iq") ;;
   upload_page sample_root sample_rate (accept_request "NOAA 19" capture_name "iq"))
    empty_world.
Proof.
  refine (uploads_commute sample_root sample_rate empty_world "file" "file"
            [("sat_type", "NOAA 19")] [("sat_type", "NOAA 18")]
            capture_name capture_name "iq" "iq" "NOAA 19" "NOAA 18" _ _ _ _ _ _ _);
    try reflexivity.
  discriminate.
Defined.

(** ** Ticks *)

Section TickExtras.
Context (root_path : string) (RATE : Z) (TLE_NOAA : string) (X : Collaborators).

Abbreviation window_dir := (window_dir root_path RATE).
Abbreviation tms_dir := (tms_dir root_path RATE).
Abbreviation update := (update root_path RATE TLE_NOAA X).
Abbreviation process := (process TLE_NOAA X).
Abbreviation move_unprocessed_files := (move_unprocessed_files root_path RATE).

(** X14.  A tick on an absent or empty window moves the cursor and does
    nothing else: no file, no collaborator, and the configuration is
    neither changed nor saved. *)
Theorem idle_tick_only_advances w :
  (forall e, fs w !! window_dir (start_date w) = Some e -> listing e = []) ->
  let r := update w in
  r.1 = Ok tt /\ start_date r.2 = start_date w + RATE /\ fs r.2 = fs w /\
  conf r.2 = conf w /\ conf_json r.2 = conf_json w /\ trace r.2 = trace w.
Proof.
  intros H. cbv zeta. rewrite update_skips; [done |].
  destruct (fs w !! window_dir (start_date w)) as [e |]; [by apply H | done].
Qed.

(** X15.  When the pipeline raises, the tick raises the same exception
    where the pipeline stopped: the cursor stays on the window, nothing is
    reconciled or recorded, and the configuration file is not written. *)
Theorem failed_pipeline_keeps_window w e exn :
  fs w !! window_dir (start_date w) = Some e -> listing e <> [] ->
  (process (window_dir (start_date w)) (tms_dir (start_date w)) (listing e) w).1
    = Raise exn ->
  update w = process (window_dir (start_date w)) (tms_dir (start_date w)) (listing e) w /\
  start_date (update w).2 = start_date w /\ conf (update w).2 = conf w /\
  conf_json (update w).2 = conf_json w.
Proof.
  intros Hd Hl Hp. rewrite (update_processes _ _ _ _ w e Hd Hl).
  set (p := process _ _ _) in *.
  assert (Hrun : (p ;; advance RATE ;;
                  move_unprocessed_files (window_dir (start_date w)) (listing e) ;;
                  record_window (get_interval (start_date w) RATE)) w = p w).
  { unfold bind at 1. destruct (p w) as [[[] | ex] w1]; [done | done]. }
  rewrite Hrun. split; [done |].
  unfold p in *. rewrite process_before_save in Hp |- *. unfold bind in Hp |- *.
  pose proof (before_save_preserves_globals TLE_NOAA X (window_dir (start_date w))
                (tms_dir (start_date w)) (listing e) w) as Hg.
  destruct (before_save _ _ _ _ _ w) as [[[] | ex] w1]; [done |].
  unfold same, globals in Hg. cbn [snd] in Hg |- *. by injection Hg.
Qed.

Lemma record_window_conf interval w :
  let r := record_window interval w in
  (r.1 = Ok tt -> exists c, dict_get (conf w) (KStr "counter") = Some (VInt c)) /\
  (conf_fresh (conf w) -> conf_fresh (conf r.2)).
Proof.
  cbv zeta. unfold record_window, conf_index. monad_unfold.
  destruct (dict_get (conf w) (KStr "counter")) as [[c | s] |] eqn:Hc; cbn [conf with_conf key_of_val].
  - assert (Hk : dict_get (dict_set (conf w) (KInt c) (VStr interval)) (KStr "counter")
                 = Some (VInt c)) by (rewrite dict_get_set_ne; [exact Hc | reflexivity]).
    rewrite Hk. cbn [fst snd conf with_conf]. split; [by exists c |].
    intros Hfresh c' Hc' k Hk'.
    rewrite dict_get_set_eq in Hc' by (by rewrite Hk).
    injection Hc' as <-.
    rewrite !dict_get_set_ne by (cbn; lia || done).
    apply (Hfresh c Hc). lia.
  - assert (Hk : exists t, dict_get (dict_set (conf w) (KStr s) (VStr interval))
                             (KStr "counter") = Some (VStr t)).
    { destruct (String.eqb_spec s "counter") as [-> | Hne].
      - exists interval. apply dict_get_set_eq. by rewrite Hc.
      - exists s. rewrite dict_get_set_ne; [done |]. cbn.
        by destruct (String.eqb_spec s "counter"). }
    destruct Hk as [t Hk]. rewrite Hk. cbn [fst snd conf with_conf].
    split; [done |]. intros _ c' Hc'. congruence.
  - by cbn [fst snd].
Qed.
Lemma tick_stages w e :
  fs w !! window_dir (start_date w) = Some e -> listing e <> [] ->
  exists w3, conf w3 = conf w /\
    ((update w).1 <> Ok tt /\ conf (update w).2 = conf w \/
     update w = record_window (get_interval (start_date w) RATE) w3).
Proof.
  intros Hd Hl. rewrite (update_processes _ _ _ _ w e Hd Hl).
  set (p := process _ _ _). set (m := move_unprocessed_files _ _).
  set (r := record_window _).
  assert (Hrun : (p ;; advance RATE ;; m ;; r) w =
                 match p w with
                 | (Ok _, w1) =>
                     match m (with_start_date (start_date w1 + RATE) w1) with
                     | (Ok _, w3) => r w3
                     | (Raise ex, w3) => (Raise ex, w3)
                     end
                 | (Raise ex, w1) => (Raise ex, w1)
                 end) by reflexivity.
  rewrite Hrun. clear Hrun.
  pose proof (process_preserves_cursor_conf TLE_NOAA X (window_dir (start_date w))
                (tms_dir (start_date w)) (listing e) w) as Hp.
  fold p in Hp. unfold same, cursor_conf in Hp.
  destruct (p w) as [[[] | ex] w1]; cbn [snd] in Hp; injection Hp as Hsd1 Hc1.
  2: { exists w. split; [done |]. left. cbn [fst snd]. split; [discriminate | exact Hc1]. }
  pose proof (move_preserves_globals root_path RATE (window_dir (start_date w))
                (listing e) (with_start_date (start_date w1 + RATE) w1)) as Hm.
  fold m in Hm. unfold same, globals in Hm.
  destruct (m _) as [[[] | ex] w3];
    cbn [snd start_date conf conf_json with_start_date] in Hm; injection Hm as Hsd3 Hc3 Hj3.
  - exists w3. split; [congruence |]. by right.
  - exists w. split; [done |]. left. cbn [fst snd]. split; [discriminate | congruence].
Qed.


(** X17.  No tick, whether it skips, returns or raises, ever leaves an
    integer key at or above the counter: the entry a later tick records is
    always a new one. *)
Theorem fresh_configuration_is_invariant w :
  conf_fresh (conf w) -> conf_fresh (conf (update w).2).
Proof.
  intros Hfresh.
  destruct (fs w !! window_dir (start_date w)) as [e |] eqn:Hd.
  2: { rewrite update_skips; [done | by rewrite Hd]. }
  destruct (decide (listing e = [])) as [Hl | Hl].
  { rewrite update_skips; [done | by rewrite Hd]. }
  destruct (tick_stages w e Hd Hl) as (w3 & Hc & [[_ H] | H]); [by rewrite H |].
  rewrite H. apply record_window_conf. by rewrite Hc.
Qed.

(** X18.  After a tick that processed a window and returned, the map and
    globe pages are rendered with the new window as the last entry of the
    configuration, under the decimal form of the counter the tick found. *)
Theorem pages_show_recorded_window w e c :
  fs w !! window_dir (start_date w) = Some e -> listing e <> [] ->
  dict_get (conf w) (KStr "counter") = Some (VInt c) ->
  conf_fresh (conf w) ->
  (update w).1 = Ok tt ->
  let w' := (update w).2 in
  exists page,
    map_page w' = (Ok ("map.html"%string, page), w') /\
    globe_page w' = (Ok ("globe.html"%string, page), w') /\
    last page = Some (show_Z c, VStr (get_interval (start_date w) RATE)).
Proof.
  intros Hd Hl Hc Hfresh Hok. cbv zeta.
  destruct (record_after_process root_path RATE TLE_NOAA X w (listing e) c) as [Hconf _];
    try done.
  { by rewrite Hd. }
  { apply (Hfresh c Hc). lia. }
  exists (json_dump (conf (update w).2)). split; [done |]. split; [done |].
  rewrite Hconf. unfold json_dump. rewrite map_app. cbn [map fst snd json_key].
  apply last_snoc.
Qed.
End TickExtras.

Lemma idle_tick_only_advances_witness :
  (update sample_root sample_rate sample_tle all_fine empty_world).1 = Ok tt.
Proof.
  refine (proj1 (idle_tick_only_advances sample_root sample_rate sample_tle all_fine empty_world _)).
  intros e He. vm_compute in He. discriminate.
Defined.


Lemma failed_pipeline_keeps_window_witness :
  start_date (update sample_root sample_rate sample_tle merge_breaks
                (sample_world two_files_fs)).2 = sample_start.
Proof.
  refine (proj1 (proj2 (failed_pipeline_keeps_window sample_root sample_rate sample_tle
            merge_breaks (sample_world two_files_fs)
            (<[ file_a := "iq-a" ]> {[ file_b := "iq-b" ]}) (StageError "merge") _ _ _))).
  - reflexivity.
  - vm_compute. discriminate.
  - vm_compute. reflexivity.
Defined.


Lemma sample_conf_fresh : conf_fresh sample_conf.
Proof. apply loaded_conf_fresh. intros k v Hk. set_solver. Qed.

Lemma fresh_configuration_is_invariant_witness :
  conf_fresh (conf (update sample_root sample_rate sample_tle all_fine
                      (sample_world two_files_fs)).2).
Proof.
  apply (fresh_configuration_is_invariant sample_root sample_rate sample_tle all_fine
           (sample_world two_files_fs)).
  intros c Hc k Hk. injection Hc as <-. reflexivity.
Defined.

Lemma pages_show_recorded_window_witness :
  exists page,
    map_page (update sample_root sample_rate sample_tle all_fine
                (sample_world two_files_fs)).2 =
    (Ok ("map.html"%string, page),
     (update sample_root sample_rate sample_tle all_fine (sample_world two_files_fs)).2) /\
    globe_page (update sample_root sample_rate sample_tle all_fine
                  (sample_world two_files_fs)).2 =
    (Ok ("globe.html"%string, page),
     (update sample_root sample_rate sample_tle all_fine (sample_world two_files_fs)).2) /\
    last page = Some (show_Z 0, VStr (get_interval sample_start sample_rate)).
Proof.
  refine (pages_show_recorded_window sample_root sample_rate sample_tle all_fine
            (sample_world two_files_fs) (<[ file_a := "iq-a" ]> {[ file_b := "iq-b" ]}) 0
            _ _ _ _ _).
  - reflexivity.
  - vm_compute. discriminate.
  - reflexivity.
  - intros c Hc k Hk. injection Hc as <-. reflexivity.
  - vm_compute. reflexivity.
Defined.

(** ** The pipeline *)

Section PipelineExtras.
Context (TLE_NOAA : string) (X : Collaborators).

Abbreviation process := (process TLE_NOAA X).
Abbreviation per_file_loop := (per_file_loop TLE_NOAA X).
Abbreviation before_save := (before_save TLE_NOAA X).
Abbreviation stage := (stage TLE_NOAA X).
Abbreviation attempt := (attempt TLE_NOAA X).

Lemma process_globals dir_path tms_path images w :
  let r := process dir_path tms_path images w in
  start_date r.2 = start_date w /\ conf r.2 = conf w /\
  conf_json r.2 = match r.1 with
                  | Ok _ => json_dump (conf w)
                  | Raise _ => conf_json w
                  end.
Proof.
  cbv zeta. rewrite process_before_save. unfold bind.
  pose proof (before_save_preserves_globals TLE_NOAA X dir_path tms_path images w) as Hg.
  unfold same, globals in Hg.
  destruct (before_save dir_path tms_path images w) as [[[] | e] w1];
    cbn [snd] in Hg; injection Hg as Hsd Hc Hj.
  - rewrite save_conf_run. cbn [fst snd start_date conf conf_json with_conf_json].
    by rewrite Hc.
  - done.
Qed.

(** X19.  The pipeline never moves the cursor and never changes the
    in-memory configuration; the configuration file is written exactly
    when the pipeline returns, and is left as it was when it raises. *)
Theorem process_writes_configuration_last dir_path tms_path images w :
  let r := process dir_path tms_path images w in
  start_date r.2 = start_date w /\ conf r.2 = conf w /\
  conf_json r.2 = match r.1 with
                  | Ok _ => json_dump (conf w)
                  | Raise _ => conf_json w
                  end.
Proof. apply process_globals. Qed.


Lemma filter_other evs : Forall other_event evs -> List.filter is_preprocess evs = [].
Proof.
  induction 1 as [| ev evs Hev _ IH]; [done |]. cbn [List.filter].
  unfold other_event in Hev. by rewrite Hev.
Qed.

Lemma preserves_trace_logs {A} (m : M A) : preserves trace m -> logs_only other_event m.
Proof. intros H w. exists []. by rewrite app_nil_r, (H w). Qed.

Lemma attempt_events dir_path f w :
  exists evs,
    trace (attempt dir_path f w).2 =
    trace w ++ EvPreprocess (dir_path +:+ "/" +:+ f) (artifact dir_path f) :: evs /\
    Forall other_event evs.
Proof.
  unfold attempt, stage.
  set (rest := (call (EvSaveMetadata _ _ _ _) _ ;; call (EvGeoref _ _) _)).
  assert (Hrest : logs_only other_event (try_except rest (fun exp => print exp))).
  { apply (frame_try_except (extends_with other_event)).
    - apply (frame_bind (extends_with other_event)); [by apply call_logs | intros _].
      by apply call_logs.
    - intros e. by apply print_logs. }
  unfold try_except, bind at 1.
  destruct (call_frame (EvPreprocess (dir_path +:+ "/" +:+ f) (artifact dir_path f))
              (preprocess X (dir_path +:+ "/" +:+ f) (artifact dir_path f)) w)
    as (r & fs' & _ & ->).
  destruct r as [e |].
  - exists [EvPrint e]. split; [| by apply Forall_singleton].
    unfold print, modify. cbn [snd trace log with_fs]. by rewrite <- app_assoc.
  - specialize (Hrest (with_fs fs' (log (EvPreprocess (dir_path +:+ "/" +:+ f)
                                          (artifact dir_path f)) w))).
    destruct Hrest as (evs & Htr & Hevs). unfold try_except in Htr.
    exists evs. split; [| done]. rewrite Htr. cbn [trace log with_fs].
    by rewrite <- app_assoc.
Qed.
Lemma loop_events dir_path images : forall w,
  exists evs,
    trace (for_each images (attempt dir_path) w).2 = trace w ++ evs /\
    List.filter is_preprocess evs =
    map (fun f => EvPreprocess (dir_path +:+ "/" +:+ f) (artifact dir_path f)) images.
Proof.
  induction images as [| f images IH]; intros w.
  { exists []. by rewrite app_nil_r. }
  cbn [for_each]. unfold bind.
  pose proof (attempt_returns TLE_NOAA X dir_path f w) as Hret.
  destruct (attempt_events dir_path f w) as (evs1 & Htr1 & Hevs1).
  destruct (attempt dir_path f w) as [[[] | e] w1]; [| done].
  cbn [snd] in Htr1. destruct (IH w1) as (evs & Htr & Hevs).
  exists (EvPreprocess (dir_path +:+ "/" +:+ f) (artifact dir_path f) :: evs1 ++ evs).
  split.
  - rewrite Htr, Htr1. by rewrite <- app_assoc.
  - cbn [List.filter is_preprocess map]. f_equal.
    by rewrite List.filter_app, (filter_other evs1), Hevs.
Qed.

Lemma after_loop_logs dir_path tms_path images :
  logs_only other_event
    ((if (1 <? List.length (map (artifact dir_path) images))%nat then
        call (EvMerge (map (artifact dir_path) images) (merged_path dir_path))
             (merge X (map (artifact dir_path) images) (merged_path dir_path)) ;;
        gdal2tiles X (merged_path dir_path) tms_path
      else if (List.length (map (artifact dir_path) images) =? 1)%nat then
        let* geo0 := list_index (map (artifact dir_path) images) 0 in
        copyfile geo0 (merged_path dir_path) ;;
        call (EvSetNodata (merged_path dir_path) 0) (set_nodata X (merged_path dir_path) 0) ;;
        gdal2tiles X (merged_path dir_path) tms_path
      else ret tt) ;; save_conf).
Proof.
  assert (Htiles : logs_only other_event (gdal2tiles X (merged_path dir_path) tms_path)).
  { apply frame_modify. intros w. exists [EvSystem
      ("gdal2tiles.py --profile=mercator -z 1-6 -w none " +:+
       merged_path dir_path +:+ " " +:+ tms_path)].
    split; [done | by apply Forall_singleton]. }
  apply (frame_bind (extends_with other_event)).
  2: { intros _. by apply preserves_trace_logs. }
  repeat apply frame_if.
  - apply (frame_bind (extends_with other_event)); [by apply call_logs | by intros _].
  - apply (frame_bind (extends_with other_event)).
    { apply preserves_trace_logs, list_index_preserves. }
    intros geo0. apply (frame_bind (extends_with other_event)).
    { unfold copyfile. apply (frame_bind (extends_with other_event)).
      { apply frame_modify. intros w. exists [EvCopyfile geo0 (merged_path dir_path)].
        split; [done | by apply Forall_singleton]. }
      intros _. apply (frame_bind (extends_with other_event)).
      { apply preserves_trace_logs, read_file_preserves. }
      intros c. apply preserves_trace_logs. intros w. unfold write_file.
      by destruct (fs_write _ c (fs w)). }
    intros _. apply (frame_bind (extends_with other_event)); [by apply call_logs | by intros _].
  - apply frame_ret. apply _.
Qed.

(** X20.  Whatever fails, every file of the snapshot is handed to
    [preprocess] exactly once, in the order of the listing, with its own
    path and its artifact path. *)
Theorem every_file_preprocessed_once dir_path tms_path images w :
  exists evs,
    trace (process dir_path tms_path images w).2 = trace w ++ evs /\
    List.filter is_preprocess evs =
    map (fun f => EvPreprocess (dir_path +:+ "/" +:+ f) (artifact dir_path f)) images.
Proof.
  rewrite process_before_save. unfold before_save.
  set (rest := (if (1 <? _)%nat then _ else _)).
  assert (Hassoc : forall w, ((per_file_loop dir_path images ;; rest) ;; save_conf) w =
                             (per_file_loop dir_path images ;; (rest ;; save_conf)) w).
  { intros w0. unfold bind. by destruct (per_file_loop dir_path images w0) as [[[] | e] w1]. }
  rewrite Hassoc. unfold bind at 1.
  pose proof (per_file_loop_returns TLE_NOAA X dir_path images w) as Hret.
  rewrite per_file_loop_attempts in Hret |- *.
  destruct (loop_events dir_path images w) as (evs1 & Htr1 & Hevs1).
  destruct (for_each images (attempt dir_path) w) as [[[] | e] w1]; [| done].
  cbn [snd] in Htr1.
  destruct (after_loop_logs dir_path tms_path images w1) as (evs2 & Htr2 & Hevs2).
  exists (evs1 ++ evs2). split.
  - unfold rest. rewrite Htr2, Htr1. by rewrite <- app_assoc.
  - by rewrite List.filter_app, Hevs1, (filter_other evs2), app_nil_r.
Qed.
Lemma attempt_stage_events dir_path f w :
  let val := dir_path +:+ "/" +:+ f in
  let geo := artifact dir_path f in
  let pre := preprocess X val geo (fs w) in
  let meta := save_metadata X val geo (str_take 7 f) TLE_NOAA pre.2 in
  exists evs,
    trace (attempt dir_path f w).2 = trace w ++ evs /\
    (EvSaveMetadata val geo (str_take 7 f) TLE_NOAA ∈ evs <-> pre.1 = None) /\
    (EvGeoref geo geo ∈ evs <-> pre.1 = None /\ meta.1 = None).
Proof.
  cbv zeta. unfold attempt, stage, try_except, bind, call, print, modify.
  cbn [fs log with_fs].
  destruct (preprocess X _ _ (fs w)) as [[e1 |] fs1]; cbn [fst snd fs log with_fs trace].
  { eexists [_; _]. split; [by rewrite <- app_assoc |].
    split; (split; [intros H | intros H; by destruct_and?]); set_solver. }
  destruct (save_metadata X _ _ _ _ fs1) as [[e2 |] fs2]; cbn [fst snd fs log with_fs trace].
  { eexists [_; _; _]. split; [by rewrite <- !app_assoc |].
    split; [split; [done | intros _; set_solver] |].
    split; [intros H | intros H; by destruct_and?]. set_solver. }
  destruct (georef_tif X _ _ fs2) as [[e3 |] fs3]; cbn [fst snd fs log with_fs trace].
  - eexists [_; _; _; _]. split; [by rewrite <- !app_assoc |].
    split; (split; [done | intros _; set_solver]).
  - eexists [_; _; _]. split; [by rewrite <- !app_assoc |].
    split; (split; [done | intros _; set_solver]).
Qed.

(** X21.  The stages of a file run in the order preprocess, save_metadata,
    georef_tif and stop at the first that raises: metadata is saved only
    if preprocessing returned, and the artifact is geo-referenced only if
    both returned. *)
Theorem later_stages_need_earlier_ones dir_path f w :
  let val := dir_path +:+ "/" +:+ f in
  let geo := artifact dir_path f in
  let pre := preprocess X val geo (fs w) in
  let meta := save_metadata X val geo (str_take 7 f) TLE_NOAA pre.2 in
  exists evs,
    trace (attempt dir_path f w).2 = trace w ++ evs /\
    (EvSaveMetadata val geo (str_take 7 f) TLE_NOAA ∈ evs <-> pre.1 = None) /\
    (EvGeoref geo geo ∈ evs <-> pre.1 = None /\ meta.1 = None).
Proof. apply attempt_stage_events. Qed.

(** X22.  A file stored by the upload handler under a category of seven
    characters has its metadata saved with that category as satellite
    type. *)
Theorem metadata_gets_upload_category dir_path category fname w :
  String.length category = 7%nat ->
  let f := category +:+ "_" +:+ fname in
  (preprocess X (dir_path +:+ "/" +:+ f) (artifact dir_path f) (fs w)).1 = None ->
  EvSaveMetadata (dir_path +:+ "/" +:+ f) (artifact dir_path f) category TLE_NOAA
    ∈ trace (attempt dir_path f w).2.
Proof.
  intros Hlen f Hpre.
  destruct (attempt_stage_events dir_path f w) as (evs & -> & Hmeta & _).
  apply elem_of_app. right.
  assert (Hcat : str_take 7 f = category).
  { unfold f. replace 7 with (Z.of_nat (String.length category) + 0) by lia.
    rewrite str_take_join by lia. by rewrite str_take_zero, append_nil_r. }
  rewrite Hcat in Hmeta. by apply Hmeta.
Qed.

(** X23.  With two files or more the pipeline raises exactly when [merge]
    raises, and then with its exception: failures of single files and the
    exit status of the tiling command do not count. *)
Theorem merge_decides_outcome dir_path tms_path images w :
  (2 <= List.length images)%nat ->
  let w1 := (per_file_loop dir_path images w).2 in
  (process dir_path tms_path images w).1 =
  match (merge X (map (artifact dir_path) images) (merged_path dir_path) (fs w1)).1 with
  | None => Ok tt
  | Some e => Raise e
  end.
Proof.
  intros Hlen. cbv zeta.
  pose proof (per_file_loop_returns TLE_NOAA X dir_path images w) as Hret.
  destruct (per_file_loop dir_path images w) as [r w1] eqn:Hloop.
  cbn [fst] in Hret. subst r. cbn [snd].
  rewrite (process_many TLE_NOAA X dir_path tms_path images w w1 Hlen Hloop).
  unfold bind, call.
  by destruct (merge X _ _ (fs w1)) as [[e |] fs'].
Qed.

(** X24.  With a single file whose artifact does not exist after the loop,
    for instance because its preprocessing raised, the pipeline raises
    [FileNotFoundError] for the artifact and does not write the
    configuration file. *)
Theorem single_file_needs_artifact dir_path tms_path f w :
  let w1 := (per_file_loop dir_path [f] w).2 in
  fs_read (artifact dir_path f) (fs w1) = None ->
  (process dir_path tms_path [f] w).1 = Raise (FileNotFoundError (artifact dir_path f)) /\
  conf_json (process dir_path tms_path [f] w).2 = conf_json w.
Proof.
  cbv zeta. intros Hread.
  assert (Hraise : (process dir_path tms_path [f] w).1 =
                   Raise (FileNotFoundError (artifact dir_path f))).
  { pose proof (per_file_loop_returns TLE_NOAA X dir_path [f] w) as Hret.
    destruct (per_file_loop dir_path [f] w) as [r w1] eqn:Hloop.
    cbn [fst] in Hret. subst r. cbn [snd] in Hread.
    rewrite (process_single TLE_NOAA X dir_path tms_path f w w1 Hloop).
    unfold bind at 1. unfold copyfile, bind at 1, modify, bind at 1, read_file.
    cbn [fs log]. by rewrite Hread. }
  split; [exact Hraise |].
  pose proof (process_globals dir_path tms_path [f] w) as (_ & _ & Hj).
  cbv zeta in Hj. by rewrite Hj, Hraise.
Qed.
End PipelineExtras.

Lemma metadata_gets_upload_category_witness :
  EvSaveMetadata (sample_dir +:+ "/" +:+ file_a) (artifact sample_dir file_a) "NOAA 19"
                 sample_tle
    ∈ trace (attempt sample_tle all_fine sample_dir file_a (sample_world one_file_fs)).2.
Proof.
  refine (metadata_gets_upload_category sample_tle all_fine sample_dir "NOAA 19"
            capture_name (sample_world one_file_fs) _ _).
  - reflexivity.
  - vm_compute. reflexivity.
Defined.

Lemma merge_decides_outcome_witness :
  (process sample_tle merge_breaks sample_dir sample_tms [file_a; file_b]
     (sample_world two_files_fs)).1 = Raise (StageError "merge").
Proof.
  refine (merge_decides_outcome sample_tle merge_breaks sample_dir sample_tms
            [file_a; file_b] (sample_world two_files_fs) _).
  cbn [List.length]. lia.
Defined.

Lemma single_file_needs_artifact_witness :
  (process sample_tle preprocess_breaks sample_dir sample_tms [file_b]
     (sample_world {[ sample_dir := {[ file_b := "iq-b" ]} ]})).1 =
  Raise (FileNotFoundError (artifact sample_dir file_b)).
Proof.
  refine (proj1 (single_file_needs_artifact sample_tle preprocess_breaks sample_dir
                   sample_tms file_b (sample_world {[ sample_dir := {[ file_b := "iq-b" ]} ]}) _)).
  vm_compute. reflexivity.
Defined.

(** ** Reconciliation *)

Section ReconcileExtras.
Context (root_path : string) (RATE : Z).

Abbreviation move_unprocessed_files := (move_unprocessed_files root_path RATE).
Abbreviation next_dir w := (window_dir root_path RATE (start_date w)).

(** X25.  The files of the snapshot, the artifacts the pipeline makes of
    them and the merged output are never carried forward: each artifact
    lies in the window's own directory under a name reconciliation
    excludes. *)
Theorem products_stay_in_window dir_path images listed f :
  f ∈ images -> no_slash f = true ->
  (f ∉ not_processed images listed) /\
  ("merged.tif" ∉ not_processed images listed) /\
  exists n, artifact dir_path f = dir_path +:+ "/" +:+ n /\
            merged_path dir_path = dir_path +:+ "/" +:+ "merged.tif" /\
            n ∉ not_processed images listed.
Proof.
  intros Hf Hs. split; [| split].
  - intros H%not_processed_spec. by destruct H as (_ & H & _).
  - intros H%not_processed_spec. by destruct H as (_ & _ & _ & H).
  - destruct (artifact_is_not_straggler dir_path images listed f Hf Hs) as (n & Hn & Hnot).
    by exists n.
Qed.

(** X26.  Once reconciliation has returned, the closed window's directory
    holds no straggler any more, so reconciling it again does nothing. *)
Theorem reconciliation_is_idempotent dir_path images w e :
  names_ok (fs w) ->
  fs w !! dir_path = Some e ->
  fs w !! next_dir w = None ->
  let r := move_unprocessed_files dir_path images w in
  r.1 = Ok tt /\
  (exists e', fs r.2 !! dir_path = Some e' /\ not_processed images (listing e') = []) /\
  move_unprocessed_files dir_path images r.2 = (Ok tt, r.2).
Proof.
  intros Hok Hd Hn. cbv zeta.
  assert (Hne : dir_path <> next_dir w) by (intros ->; congruence).
  destruct (decide (not_processed images (listing e) = [])) as [Hnil | Hsome].
  { rewrite (move_no_stragglers _ _ _ _ _ e Hd Hnil). cbn [fst snd].
    split; [done |]. split; [by exists e |].
    by apply (move_no_stragglers _ _ _ _ _ e). }
  rewrite (move_relocates _ _ _ _ _ e Hok Hd Hn Hsome). cbn [fst snd].
  set (l := not_processed images (listing e)) in *.
  set (e' := (relocate l (e, ∅)).1).
  set (w' := with_fs _ w).
  assert (Hd' : fs w' !! dir_path = Some e').
  { unfold w'. cbn [fs with_fs]. rewrite lookup_insert_ne by done.
    by rewrite lookup_insert_eq. }
  assert (Hnil' : not_processed images (listing e') = []).
  { destruct (not_processed images (listing e')) as [| x rest] eqn:Hx; [done |].
    exfalso.
    assert (Hin : x ∈ not_processed images (listing e')) by (rewrite Hx; left).
    apply not_processed_spec in Hin as (Hl & Hi & Hg & Hm).
    apply listing_elem in Hl.
    destruct (relocate_lookup l e ∅ x) as [H1 _].
    { apply not_processed_NoDup, listing_NoDup. }
    { intros y Hy. apply not_processed_spec in Hy as (Hy & _). by apply listing_elem. }
    fold e' in H1. rewrite H1 in Hl.
    destruct (decide (x ∈ l)) as [Hxl | Hxl]; [by destruct Hl |].
    apply Hxl. apply not_processed_spec. split; [by apply listing_elem | done]. }
  split; [done |]. split; [by exists e' |].
  by apply (move_no_stragglers _ _ _ _ _ e').
Qed.
End ReconcileExtras.

Lemma products_stay_in_window_witness :
  exists n, artifact sample_dir file_a = sample_dir +:+ "/" +:+ n /\
            merged_path sample_dir = sample_dir +:+ "/" +:+ "merged.tif" /\
            (n ∉ not_processed [file_a] [file_a; late_file]).
Proof.
  refine (proj2 (proj2 (products_stay_in_window sample_dir [file_a] [file_a; late_file]
                          file_a _ _))).
  - left.
  - reflexivity.
Defined.

Lemma reconciliation_is_idempotent_witness :
  (move_unprocessed_files sample_root sample_rate sample_dir [file_a]
     (with_start_date (sample_start + sample_rate) (sample_world two_files_fs))).1 = Ok tt.
Proof.
  refine (proj1 (reconciliation_is_idempotent sample_root sample_rate sample_dir [file_a]
            (with_start_date (sample_start + sample_rate) (sample_world two_files_fs))
            (<[file_a := "iq-a"%string]> {[file_b := "iq-b"%string]}) _ _ _)).
  - intros d e n Hd [c Hn].
    unfold sample_world, two_files_fs, with_start_date in Hd. cbn [fs] in Hd.
    apply lookup_singleton_Some in Hd as [<- <-].
    apply lookup_insert_Some in Hn as [[<- _] | [_ Hn]]; [reflexivity |].
    apply lookup_singleton_Some in Hn as [<- _]. reflexivity.
  - unfold sample_world, two_files_fs, with_start_date. cbn [fs].
    apply lookup_singleton_eq.
  - vm_compute. reflexivity.
Defined.

(** ** The configuration and its file *)

Lemma dict_set_keys d k v x :
  x ∈ (dict_set d k v).*1 -> x ∈ d.*1 \/ x = k.
Proof.
  induction d as [| [k' v'] d IH]; cbn [dict_set].
  - intros ?%list_elem_of_singleton. by right.
  - destruct (ckey_eqb k' k); cbn [fmap list_fmap fst].
    + intros H. by left.
    + intros [-> | H]%elem_of_cons; [left; left |].
      destruct (IH H) as [H' | ->]; [left; by right | by right].
Qed.

Lemma json_load_keys o : forall acc x,
  x ∈ (foldl (fun d kv => dict_set d (KStr kv.1) kv.2) acc o).*1 ->
  x ∈ acc.*1 \/ exists s, x = KStr s.
Proof.
  induction o as [| [k v] o IH]; intros acc x; cbn [foldl]; [by left |].
  intros [H | H]%IH; [| by right].
  apply dict_set_keys in H as [H | ->]; [by left | right; by eexists].
Qed.

(** X27.  The configuration as loaded at start-up has string keys only,
    so that no integer key lies at or above its counter. *)
Theorem loaded_configuration_has_string_keys w :
  let c := conf (load_conf w).2 in
  (forall k v, (k, v) ∈ c -> exists s, k = KStr s) /\ conf_fresh c.
Proof.
  cbv zeta. unfold load_conf, modify. cbn [snd conf with_conf].
  assert (H : forall k v, (k, v) ∈ json_load (conf_json w) -> exists s, k = KStr s).
  { intros k v Hk. unfold json_load in Hk.
    destruct (json_load_keys (conf_json w) [] k) as [H | H]; [| by apply elem_of_nil in H | done].
    apply list_elem_of_fmap. by exists (k, v). }
  split; [exact H | by apply loaded_conf_fresh].
Qed.

Lemma dict_get_set_same d k v : dict_get (dict_set d k v) k = Some v.
Proof.
  assert (Hrefl : ckey_eqb k k = true) by (by apply ckey_eqb_eq).
  induction d as [| [k' v'] d IH]; cbn [dict_set dict_get]; [by rewrite Hrefl |].
  destruct (ckey_eqb k' k) eqn:Hk; cbn [dict_get]; by rewrite Hk.
Qed.

Lemma json_get_app o o' s :
  json_get (o ++ o') s =
  match json_get o s with Some v => Some v | None => json_get o' s end.
Proof.
  induction o as [| [k v] o IH]; [done |]. cbn [app json_get].
  by destruct (String.eqb k s).
Qed.

Lemma load_last_wins o s : forall acc,
  dict_get (foldl (fun d kv => dict_set d (KStr kv.1) kv.2) acc o) (KStr s) =
  match json_last o s with Some v => Some v | None => dict_get acc (KStr s) end.
Proof.
  unfold json_last. induction o as [| [k v] o IH]; intros acc; [done |].
  cbn [foldl fst snd]. rewrite IH, reverse_cons, json_get_app.
  destruct (json_get (reverse o) s) as [v' |]; [done |]. cbn [json_get].
  destruct (String.eqb_spec k s) as [-> | Hne].
  - apply dict_get_set_same.
  - apply dict_get_set_ne. cbn [ckey_eqb]. by destruct (String.eqb_spec k s).
Qed.

(** X28.  Loading reads every key as a string, and of the values written
    under one key the last one counts. *)
Theorem load_takes_last_value w s n :
  dict_get (conf (load_conf w).2) (KStr s) = json_last (conf_json w) s /\
  dict_get (conf (load_conf w).2) (KInt n) = None.
Proof.
  unfold load_conf, modify, json_load. cbn [snd conf with_conf]. split.
  - rewrite load_last_wins. by destruct (json_last (conf_json w) s).
  - destruct (dict_get _ (KInt n)) as [v |] eqn:Hget; [| done]. exfalso.
    assert (Hin : KInt n ∈ (foldl (fun d kv => dict_set d (KStr kv.1) kv.2) []
                              (conf_json w)).*1).
    { clear -Hget. induction (foldl _ _ _) as [| [k' v'] d IH]; [done |].
      cbn [dict_get] in Hget. destruct (ckey_eqb k' (KInt n)) eqn:Hk.
      - apply ckey_eqb_eq in Hk as ->. left.
      - right. by apply IH. }
    apply json_load_keys in Hin as [Hin | [s' Hs']]; [by apply elem_of_nil in Hin | done].
Qed.

Lemma load_appends o : forall acc,
  NoDup o.*1 ->
  (forall k, k ∈ o.*1 -> dict_get acc (KStr k) = None) ->
  foldl (fun d kv => dict_set d (KStr kv.1) kv.2) acc o =
  acc ++ map (fun kv => (KStr kv.1, kv.2)) o.
Proof.
  induction o as [| [k v] o IH]; intros acc Hnd Hacc; cbn [foldl map fst snd].
  { by rewrite app_nil_r. }
  cbn [fmap list_fmap fst] in Hnd, Hacc. apply NoDup_cons in Hnd as [Hk Hnd].
  rewrite dict_set_absent by (apply Hacc; left).
  rewrite IH; [by rewrite <- app_assoc | done |].
  intros k' Hk'. rewrite dict_get_app, Hacc by (by right). cbn [dict_get ckey_eqb].
  destruct (String.eqb_spec k k') as [-> | _]; [done | done].
Qed.

(** X29.  Saving the configuration and loading it again, as a restart
    does, keeps every entry in its place with its value, and turns every
    key into the string it was written as, provided no two keys are
    written as the same string. *)
Theorem restart_keeps_entries w :
  NoDup (json_dump (conf w)).*1 ->
  conf ((save_conf ;; load_conf) w).2 =
  map (fun kv => (KStr (json_key kv.1), kv.2)) (conf w).
Proof.
  intros Hnd. unfold bind. rewrite save_conf_run.
  unfold load_conf, modify, json_load. cbn [snd conf conf_json with_conf with_conf_json].
  rewrite load_appends; [| done | done].
  unfold json_dump. by rewrite map_map.
Qed.

Lemma restart_keeps_entries_witness :
  conf ((save_conf ;; load_conf)
          (with_conf (sample_conf ++ [(KInt 0, VStr "2019-06-01_12:00:00_2019-06-01_12:10:00")])
             empty_world)).2 =
  [(KStr "update_rate", VInt 600); (KStr "counter", VInt 0);
   (KStr "0", VStr "2019-06-01_12:00:00_2019-06-01_12:10:00")].
Proof.
  refine (restart_keeps_entries
            (with_conf (sample_conf ++ [(KInt 0, VStr "2019-06-01_12:00:00_2019-06-01_12:10:00")])
               empty_world) _).
  vm_compute. repeat (apply NoDup_cons; split; [set_solver |]). apply NoDup_nil_2.
Defined.
